(** * Home Assistant event watchers: rule store, matching and event session

    A shallow embedding of the rule store (watcher-store.ts, listener-store.ts)
    and of the event session (watcher-service.ts, listener-service.ts), with
    the properties of the rule engine proved over it, and of the [ha_listen]
    tool (tools.ts) that edits the listener store.

    Conventions.
    - An optional property [p?: string] is an [option string]; JavaScript's
      truthiness test on it is [truthy]: [undefined] and the empty string are
      both falsy.
    - Code that can throw lives in the monad [M]: a state monad over the
      [World] (files, journal of effects, entropy, clock, disk) with
      exceptions.
    - Every call the code makes to the outside (file write, logger, timers,
      socket, delivery sink) is recorded in the world's [journal], a call to
      the disk whether or not the disk completes it.
    - The disk answers each [fs.mkdir] and [fs.writeFile] as the world's
      [disk] says: a property of a completed write is stated under
      [accepts], which says that the next calls complete. *)

From Stdlib Require Import ZArith NArith String Ascii List Bool Lia.
From stdpp Require Import base strings gmap list pretty.

(** ** JavaScript values *)

(** The one-character string holding a double quote. *)
Definition dq : string := String "034"%char EmptyString.

(** [ToBoolean] on a string: only the empty string is falsy. *)
Definition truthy_string (s : string) : bool := negb (String.eqb s "").

(** [ToBoolean] on [string | undefined]. *)
Definition truthy (o : option string) : bool :=
  match o with
  | None => false
  | Some s => truthy_string s
  end.

(** [a ?? b] on [string | undefined]. *)
Definition nullish (o : option string) (d : string) : string :=
  match o with
  | None => d
  | Some s => s
  end.

(** [String.prototype.slice(0, n)]. *)
Definition slice0 (n : nat) (s : string) : string := String.substring 0 n s.

(** [Array.prototype.join]. *)
Fixpoint join (sep : string) (parts : list string) : string :=
  match parts with
  | [] => ""
  | [p] => p
  | p :: rest => p +:+ sep +:+ join sep rest
  end.

(** [xs.filter(Boolean)] on an array of [string | null]. *)
Fixpoint filter_Boolean (xs : list (option string)) : list string :=
  match xs with
  | [] => []
  | x :: rest =>
      if truthy x then nullish x "" :: filter_Boolean rest
      else filter_Boolean rest
  end.

(** [xs.findIndex(p)], with [None] for -1. *)
Fixpoint findIndex {A} (p : A -> bool) (xs : list A) : option nat :=
  match xs with
  | [] => None
  | x :: rest => if p x then Some 0%nat else option_map S (findIndex p rest)
  end.

(** [xs.splice(idx, 1)]: the array left behind. *)
Fixpoint splice1 {A} (idx : nat) (xs : list A) : list A :=
  match idx, xs with
  | _, [] => []
  | O, _ :: rest => rest
  | S i, x :: rest => x :: splice1 i rest
  end.

(** [s.replace(/'/g, r)]. *)
Fixpoint replace_all_quotes (r : string) (s : string) : string :=
  match s with
  | EmptyString => EmptyString
  | String c rest =>
      if Ascii.eqb c "'" then r +:+ replace_all_quotes r rest
      else String c (replace_all_quotes r rest)
  end.

(** [s.replace(/\/$/, "")]: drops one trailing slash. *)
Fixpoint strip_trailing_slash (s : string) : string :=
  match s with
  | EmptyString => EmptyString
  | String c EmptyString => if Ascii.eqb c "/" then EmptyString else s
  | String c rest => String c (strip_trailing_slash rest)
  end.

(** [s.replace(/^http/, "ws")]. *)
Definition http_to_ws (s : string) : string :=
  if String.prefix "http" s
  then "ws" +:+ String.substring 4 (String.length s - 4) s
  else s.

(** ** Outcomes and the effect monad *)

Inductive Outcome (A : Type) : Type :=
| Returned (a : A)
| Thrown (err : string).
Arguments Returned {A} a.
Arguments Thrown {A} err.

(** What [JSON.parse] yields on a store file, with array elements taken at
    the type the code casts them to ([parsed as R[]]). *)
Inductive Json (R : Type) : Type :=
| JNull
| JBool (b : bool)
| JNumber (n : Z)
| JString (s : string)
| JObject (keys : list string)
| JArray (items : list R).
Arguments JNull {R}.
Arguments JBool {R} b.
Arguments JNumber {R} n.
Arguments JString {R} s.
Arguments JObject {R} keys.
Arguments JArray {R} items.

Definition Array_isArray {R} (v : Json R) : bool :=
  match v with
  | JArray _ => true
  | _ => false
  end.

(** The cast [parsed as R[]], applied to a value known to be an array. *)
Definition as_items {R} (v : Json R) : list R :=
  match v with
  | JArray items => items
  | _ => []
  end.

(** The bytes of a file, up to what [JSON.parse] makes of them: text it
    rejects with a [SyntaxError], or text it maps to a value.  Writing
    [JSON.stringify(v, null, 2) + "\n"] yields text that parses back to [v]. *)
Inductive Content (R : Type) : Type :=
| Malformed (text : string)
| Wellformed (v : Json R).
Arguments Malformed {R} text.
Arguments Wellformed {R} v.

Inductive Level : Set := INFO | WARN | ERROR.

(** Messages the session sends on its socket. *)
Inductive Outgoing : Type :=
| MsgAuth (access_token : string)
| MsgSubscribeEvents (id : Z) (event_type : string)
| MsgPing (id : Z).

(** Calls to the outside, in the order they are made. *)
Inductive Effect : Type :=
| FsMkdir (dir : string)
| FsWrite (path : string)
| Log (level : Level) (msg : string)
| EnqueueSystemEvent (text sessionKey : string)
| Exec (cmd : string) (timeout : Z)
| NewWebSocket (url : string)
| WsClose
| WsSend (msg : Outgoing)
| SetTimeout (delay : Z)
| ClearTimeout
| SetInterval (period : Z)
| ClearInterval
| UnhandledRejection (err : string).

(** A reading of the wall clock, as [Date.prototype.toISOString] prints it:
    [<date>T<time>Z]. *)
Record Instant : Type := { iso_date : string; iso_time : string }.

Definition toISOString (d : Instant) : string :=
  iso_date d +:+ "T" +:+ iso_time d +:+ "Z".

(** [crypto.randomUUID()] draws 128 bits and prints them as 32 lowercase
    hexadecimal digits in groups of 8-4-4-4-12. *)
Definition hex_digit (n : N) : ascii :=
  nth (N.to_nat n)
      ["0"; "1"; "2"; "3"; "4"; "5"; "6"; "7";
       "8"; "9"; "a"; "b"; "c"; "d"; "e"; "f"]%char "0"%char.

Definition nibble (u : N) (i : nat) : N :=
  N.land (N.shiftr u (4 * N.of_nat i)) 15.

Definition hex_group (u : N) (positions : list nat) : string :=
  string_of_list_ascii (map (fun i => hex_digit (nibble u i)) positions).

Definition UUID_toString (u : N) : string :=
  hex_group u [31; 30; 29; 28; 27; 26; 25; 24]%nat +:+ "-" +:+
  hex_group u [23; 22; 21; 20]%nat +:+ "-" +:+
  hex_group u [19; 18; 17; 16]%nat +:+ "-" +:+
  hex_group u [15; 14; 13; 12]%nat +:+ "-" +:+
  hex_group u [11; 10; 9; 8; 7; 6; 5; 4; 3; 2; 1; 0]%nat.

(** What a write that the disk did not complete leaves in the file: the
    file as it was (the open failed), a beginning of the text, which
    [JSON.parse] rejects (the disk filled up), or the whole text (the error
    came at the close). *)
Inductive Leftover : Type :=
| Untouched
| Truncated (text : string)
| Complete.

(** A call the disk refuses: the error the promise rejects with, and for a
    write what it leaves behind. *)
Record Refusal : Type := { errno : string; leftover : Leftover }.

Section Runtime.
(** [R] is the record type stored in the rule file. *)
Context {R : Type}.

Record World : Type := mkWorld {
  (** the regular files, each under the one path that names it; the store
      files are reached by the normal form [path.join] returns *)
  files : gmap string (Content R);
  journal : list Effect;
  (** successive results of [crypto.randomUUID()] and how many were drawn *)
  entropy : nat -> N;
  drawn : nat;
  (** what [new Date()] reads *)
  now : Instant;
  (** the disk's answers to the successive [fs.mkdir] and [fs.writeFile]
      calls ([None]: the call completes), and how many were made *)
  disk : nat -> option Refusal;
  fs_calls : nat
}.

Definition M (A : Type) : Type := World -> Outcome A * World.

Definition mret {A} (a : A) : M A := fun w => (Returned a, w).

Definition mbind {A B} (m : M A) (k : A -> M B) : M B :=
  fun w =>
    match m w with
    | (Returned a, w') => k a w'
    | (Thrown e, w') => (Thrown e, w')
    end.

Definition throw {A} (e : string) : M A := fun w => (Thrown e, w).

(** [try { m } catch (err) { h(err) }] *)
Definition try_catch {A} (m : M A) (h : string -> M A) : M A :=
  fun w =>
    match m w with
    | (Returned a, w') => (Returned a, w')
    | (Thrown e, w') => h e w'
    end.

Definition lift {A} (o : Outcome A) : M A := fun w => (o, w).

Definition emit (e : Effect) : M unit :=
  fun w => (Returned tt,
            mkWorld (files w) (journal w ++ [e]) (entropy w) (drawn w) (now w)
                    (disk w) (fs_calls w)).

(** [void m]: the promise is dropped.  When it rejects nothing catches the
    rejection: the caller has gone on with [otherwise], and the runtime
    raises [unhandledRejection].  What the host does with that is the
    host's; the events that follow in a run are those of a host that goes
    on. *)
Definition unawaited {A} (m : M A) (otherwise : A) : M A :=
  fun w =>
    match m w with
    | (Returned a, w') => (Returned a, w')
    | (Thrown e, w') =>
        (Returned otherwise,
         mkWorld (files w') (journal w' ++ [UnhandledRejection e]) (entropy w')
                 (drawn w') (now w') (disk w') (fs_calls w'))
    end.

(** [for (const x of xs) { body(x) }] *)
Fixpoint for_of {A} (xs : list A) (body : A -> M unit) : M unit :=
  match xs with
  | [] => mret tt
  | x :: rest => mbind (body x) (fun _ => for_of rest body)
  end.

(** [fs.readFile(path, "utf8")]: rejects with ENOENT on a missing file. *)
Definition fs_readFile (path : string) : M (Content R) :=
  fun w =>
    match files w !! path with
    | Some c => (Returned c, w)
    | None => (Thrown ("ENOENT: no such file or directory, open '" +:+ path +:+ "'"), w)
    end.

(** [fs.mkdir(dir, { recursive: true })]: resolves, or rejects with the
    disk's error.  Directories are implicit in the path-indexed file map;
    whatever makes the call fail (a component of [dir] that is a regular
    file: ENOTDIR, a missing permission: EACCES, a read-only mount: EROFS)
    is in the disk's answer. *)
Definition fs_mkdir_recursive (dir : string) : M unit :=
  fun w =>
    let w' := mkWorld (files w) (journal w ++ [FsMkdir dir]) (entropy w) (drawn w)
                      (now w) (disk w) (S (fs_calls w)) in
    match disk w (fs_calls w) with
    | None => (Returned tt, w')
    | Some refusal => (Thrown (errno refusal), w')
    end.

(** [fs.writeFile(path, text, "utf8")]: replaces the whole file and
    resolves, or rejects with the disk's error and leaves what the refusal
    says. *)
Definition fs_writeFile (path : string) (c : Content R) : M unit :=
  fun w =>
    let after (fs : gmap string (Content R)) :=
      mkWorld fs (journal w ++ [FsWrite path]) (entropy w) (drawn w) (now w)
              (disk w) (S (fs_calls w)) in
    match disk w (fs_calls w) with
    | None => (Returned tt, after (<[path := c]> (files w)))
    | Some refusal =>
        (Thrown (errno refusal),
         after match leftover refusal with
               | Untouched => files w
               | Truncated text => <[path := Malformed text]> (files w)
               | Complete => <[path := c]> (files w)
               end)
    end.

(** [JSON.parse(raw)] *)
Definition JSON_parse (raw : Content R) : M (Json R) :=
  match raw with
  | Malformed text => throw ("SyntaxError: Unexpected token in JSON")
  | Wellformed v => mret v
  end.

(** [JSON.stringify(items, null, 2) + "\n"] *)
Definition JSON_stringify_line (items : list R) : Content R :=
  Wellformed (JArray items).

Definition randomUUID : M string :=
  fun w => (Returned (UUID_toString (entropy w (drawn w))),
            mkWorld (files w) (journal w) (entropy w) (S (drawn w)) (now w)
                    (disk w) (fs_calls w)).

Definition new_Date : M Instant := fun w => (Returned (now w), w).

Definition logger_info (msg : string) : M unit := emit (Log INFO msg).
Definition logger_warn (msg : string) : M unit := emit (Log WARN msg).
Definition logger_error (msg : string) : M unit := emit (Log ERROR msg).
End Runtime.
Arguments World R : clear implicits.
Arguments M R A : clear implicits.

Declare Scope js_scope.
Delimit Scope js_scope with js.
Notation "'let*' x ':=' m 'in' k" := (mbind m (fun x => k))
  (at level 10, x name, m at level 200, k at level 200) : js_scope.
Notation "m ;; k" := (mbind m (fun _ => k))
  (at level 100, k at level 200, right associativity) : js_scope.
Open Scope js_scope.

(** ** Paths

    [path.join] and [path.dirname] of node's POSIX [path] module. *)

(** [s.split("/")] *)
Fixpoint split_slash (s : string) : list string :=
  match s with
  | EmptyString => [EmptyString]
  | String c rest =>
      if Ascii.eqb c "/" then EmptyString :: split_slash rest
      else
        match split_slash rest with
        | seg :: segs => String c seg :: segs
        | [] => [String c EmptyString]
        end
  end.

(** [normalizeString]: empty and "." segments are dropped, ".." removes the
    segment before it, or is kept when there is none to remove and the path
    is relative.  [res] holds the segments kept so far, last first. *)
Fixpoint normalize_segments (allowAboveRoot : bool) (segs res : list string)
  : list string :=
  match segs with
  | [] => rev res
  | seg :: rest =>
      if String.eqb seg "" || String.eqb seg "." then
        normalize_segments allowAboveRoot rest res
      else if String.eqb seg ".." then
        match res with
        | last :: before =>
            if String.eqb last ".." then
              normalize_segments allowAboveRoot rest
                (if allowAboveRoot then ".."%string :: res else res)
            else normalize_segments allowAboveRoot rest before
        | [] =>
            normalize_segments allowAboveRoot rest
              (if allowAboveRoot then [".."%string] else [])
        end
      else normalize_segments allowAboveRoot rest (seg :: res)
  end.

Fixpoint ends_with_slash (s : string) : bool :=
  match s with
  | EmptyString => false
  | String c EmptyString => Ascii.eqb c "/"
  | String _ rest => ends_with_slash rest
  end.

(** [path.normalize] *)
Definition path_normalize (p : string) : string :=
  if String.eqb p "" then "."
  else
    let isAbsolute := String.prefix "/" p in
    let trailingSeparator := ends_with_slash p in
    let body := join "/" (normalize_segments (negb isAbsolute) (split_slash p) []) in
    if String.eqb body "" then
      if isAbsolute then "/" else if trailingSeparator then "./" else "."
    else
      (if isAbsolute then "/" else "") +:+ body +:+
      (if trailingSeparator then "/" else "").

(** [path.join(...segments)]: the non-empty segments joined by "/", then
    normalised. *)
Definition path_join (segments : list string) : string :=
  match List.filter truthy_string segments with
  | [] => "."
  | parts => path_normalize (join "/" parts)
  end.

Fixpoint before_last_slash (p : string) : option string :=
  match p with
  | EmptyString => None
  | String c rest =>
      match before_last_slash rest with
      | Some d => Some (String c d)
      | None => if Ascii.eqb c "/" then Some EmptyString else None
      end
  end.

(** [path.dirname], on the paths [path.join] returns for a file: what stands
    before the last slash. *)
Definition path_dirname (p : string) : string :=
  match before_last_slash p with
  | Some EmptyString => "/"
  | Some d => d
  | None => "."
  end.

(** ** Watcher store (watcher-store.ts) *)

Module WatcherStore.

Record Watcher : Type := {
  id : string;
  entityId : string;
  fromState : option string;
  toState : option string;
  message : string;
  oneShot : bool;
  createdAt : string
}.

(** [Omit<Watcher, "id" | "createdAt">] *)
Record WatcherInput : Type := {
  in_entityId : string;
  in_fromState : option string;
  in_toState : option string;
  in_message : string;
  in_oneShot : bool
}.

Definition WATCHERS_FILE : string := "watchers.json".

Definition resolveWatchersPath (stateDir : string) : string :=
  path_join [stateDir; "plugins"; "homeassistant"; WATCHERS_FILE].

Definition loadWatchers (stateDir : string) : M Watcher (list Watcher) :=
  let filePath := resolveWatchersPath stateDir in
  try_catch
    (let* raw := fs_readFile filePath in
     let* parsed := JSON_parse raw in
     if negb (Array_isArray parsed) then mret []
     else mret (as_items parsed))
    (fun _ => mret []).

Definition saveWatchers (stateDir : string) (watchers : list Watcher)
  : M Watcher unit :=
  let filePath := resolveWatchersPath stateDir in
  fs_mkdir_recursive (path_dirname filePath) ;;
  fs_writeFile filePath (JSON_stringify_line watchers).

Definition addWatcher (stateDir : string) (input : WatcherInput)
  : M Watcher Watcher :=
  let* watchers := loadWatchers stateDir in
  let* uuid := randomUUID in
  let* date := new_Date in
  let watcher :=
    {| id := slice0 8 uuid;
       entityId := in_entityId input;
       fromState := in_fromState input;
       toState := in_toState input;
       message := in_message input;
       oneShot := in_oneShot input;
       createdAt := toISOString date |} in
  let watchers := watchers ++ [watcher] in
  saveWatchers stateDir watchers ;;
  mret watcher.

Definition removeWatcher (stateDir : string) (target : string)
  : M Watcher bool :=
  let* watchers := loadWatchers stateDir in
  match findIndex (fun w => String.eqb (id w) target) watchers with
  | None => mret false
  | Some idx =>
      let watchers := splice1 idx watchers in
      saveWatchers stateDir watchers ;;
      mret true
  end.

Definition matchesWatcher (watcher : Watcher)
    (entity_id oldState newState : string) : bool :=
  if negb (String.eqb (entityId watcher) entity_id) then false
  else if String.eqb oldState newState then false
  else if truthy (fromState watcher)
          && negb (String.eqb (nullish (fromState watcher) "") oldState)
       then false
  else if truthy (toState watcher)
          && negb (String.eqb (nullish (toState watcher) "") newState)
       then false
  else true.

Definition formatWatcher (w : Watcher) : string :=
  let trigger :=
    join " → "
      (filter_Boolean
         [ if truthy (fromState w)
           then Some ("from " +:+ dq +:+ nullish (fromState w) "" +:+ dq)
           else None;
           if truthy (toState w)
           then Some ("to " +:+ dq +:+ nullish (toState w) "" +:+ dq)
           else None ]) in
  let triggerStr := if truthy_string trigger then trigger else "any state change" in
  let mode := if oneShot w then "one-shot" else "recurring" in
  "[" +:+ id w +:+ "] `" +:+ entityId w +:+ "` " +:+ triggerStr +:+
  " (" +:+ mode +:+ ") → " +:+ dq +:+ message w +:+ dq.

End WatcherStore.

(** ** Listener store (listener-store.ts) *)

Module ListenerStore.

Record Listener : Type := {
  id : string;
  entityId : string;
  fromState : option string;
  toState : option string;
  message : string;
  oneShot : bool;
  createdAt : string
}.

(** [Omit<Listener, "id" | "createdAt">] *)
Record ListenerInput : Type := {
  in_entityId : string;
  in_fromState : option string;
  in_toState : option string;
  in_message : string;
  in_oneShot : bool
}.

Definition LISTENERS_FILE : string := "listeners.json".

Definition resolveListenersPath (stateDir : string) : string :=
  path_join [stateDir; "plugins"; "homeassistant"; LISTENERS_FILE].

Definition loadListeners (stateDir : string) : M Listener (list Listener) :=
  let filePath := resolveListenersPath stateDir in
  try_catch
    (let* raw := fs_readFile filePath in
     let* parsed := JSON_parse raw in
     if negb (Array_isArray parsed) then mret []
     else mret (as_items parsed))
    (fun _ => mret []).

Definition saveListeners (stateDir : string) (listeners : list Listener)
  : M Listener unit :=
  let filePath := resolveListenersPath stateDir in
  fs_mkdir_recursive (path_dirname filePath) ;;
  fs_writeFile filePath (JSON_stringify_line listeners).

Definition addListener (stateDir : string) (input : ListenerInput)
  : M Listener Listener :=
  let* listeners := loadListeners stateDir in
  let* uuid := randomUUID in
  let* date := new_Date in
  let listener :=
    {| id := slice0 8 uuid;
       entityId := in_entityId input;
       fromState := in_fromState input;
       toState := in_toState input;
       message := in_message input;
       oneShot := in_oneShot input;
       createdAt := toISOString date |} in
  let listeners := listeners ++ [listener] in
  saveListeners stateDir listeners ;;
  mret listener.

Definition removeListener (stateDir : string) (target : string)
  : M Listener bool :=
  let* listeners := loadListeners stateDir in
  match findIndex (fun l => String.eqb (id l) target) listeners with
  | None => mret false
  | Some idx =>
      let listeners := splice1 idx listeners in
      saveListeners stateDir listeners ;;
      mret true
  end.

Definition matchesListener (listener : Listener)
    (entity_id oldState newState : string) : bool :=
  if negb (String.eqb (entityId listener) entity_id) then false
  else if String.eqb oldState newState then false
  else if truthy (fromState listener)
          && negb (String.eqb (nullish (fromState listener) "") oldState)
       then false
  else if truthy (toState listener)
          && negb (String.eqb (nullish (toState listener) "") newState)
       then false
  else true.

Definition formatListener (l : Listener) : string :=
  let trigger :=
    join " → "
      (filter_Boolean
         [ if truthy (fromState l)
           then Some ("from " +:+ dq +:+ nullish (fromState l) "" +:+ dq)
           else None;
           if truthy (toState l)
           then Some ("to " +:+ dq +:+ nullish (toState l) "" +:+ dq)
           else None ]) in
  let triggerStr := if truthy_string trigger then trigger else "any state change" in
  let mode := if oneShot l then "one-shot" else "recurring" in
  "[" +:+ id l +:+ "] `" +:+ entityId l +:+ "` " +:+ triggerStr +:+
  " (" +:+ mode +:+ ") → " +:+ dq +:+ message l +:+ dq.

End ListenerStore.

(** ** Event session: wire protocol types (both services) *)

Definition nl : string := String "010"%char EmptyString.

(** [Math.round(delay / 1000)] for an integer [delay]. *)
Definition round_div_1000 (delay : Z) : Z := (delay + 500) / 1000.

Inductive ReadyState : Set := CONNECTING | OPEN | CLOSING | CLOSED.

Record WebSocket : Type := { readyState : ReadyState }.

Record StateSnapshot : Type := {
  state : string;
  attributes : gmap string string
}.

Record EventData : Type := {
  entity_id : string;
  old_state : option StateSnapshot;
  new_state : option StateSnapshot
}.

Record HAStateChangedEvent : Type := {
  event_type : string;
  data : EventData
}.

Inductive HAWebSocketMessage : Type :=
| auth_required (ha_version : string)
| auth_ok (ha_version : string)
| auth_invalid (message : string)
| result (id : Z) (success : bool) (error : option (string * string))
| event (id : Z) (ev : HAStateChangedEvent)
| pong (id : Z).

(** The payload of a socket [message] event: text [JSON.parse] rejects, or
    the message it parses to. *)
Inductive Frame : Type :=
| BadFrame (text : string)
| GoodFrame (msg : HAWebSocketMessage).

(** What the platform and the host deliver to a service: the plugin manager's
    [start()] and [stop()], the four socket callbacks, and the two timers. *)
Inductive Event : Type :=
| EvStart
| EvStop
| EvOpen
| EvMessage (payload : Frame)
| EvClose
| EvError (description : string)
| EvReconnectTimer
| EvPingTimer.

Definition is_start (e : Event) : bool :=
  match e with EvStart => true | _ => false end.

Definition is_open (e : Event) : bool :=
  match e with EvOpen => true | _ => false end.

(** ** Watcher service (watcher-service.ts): session injection *)

Module WatcherService.
Import WatcherStore.

Record WatcherServiceConfig : Type := {
  url : string;
  token : string;
  stateDir : string;
  (** [enqueueSystemEvent(text, { sessionKey })] returns or throws *)
  enqueueSystemEvent : string -> string -> Outcome unit;
  resolveSessionKey : unit -> option string
}.

Record HAWatcherService : Type := mkService {
  ws : option WebSocket;
  msgId : Z;
  reconnectTimer : option Z;
  pingTimer : option Z;
  reconnectDelay : Z;
  stopped : bool;
  config : WatcherServiceConfig
}.

(** [new HAWatcherService(config)] *)
Definition constructor (config : WatcherServiceConfig) : HAWatcherService :=
  mkService None 0 None None 1000 false config.

Definition set_ws (v : option WebSocket) (this : HAWatcherService) :=
  mkService v (msgId this) (reconnectTimer this) (pingTimer this)
            (reconnectDelay this) (stopped this) (config this).
Definition set_msgId (v : Z) (this : HAWatcherService) :=
  mkService (ws this) v (reconnectTimer this) (pingTimer this)
            (reconnectDelay this) (stopped this) (config this).
Definition set_reconnectTimer (v : option Z) (this : HAWatcherService) :=
  mkService (ws this) (msgId this) v (pingTimer this)
            (reconnectDelay this) (stopped this) (config this).
Definition set_pingTimer (v : option Z) (this : HAWatcherService) :=
  mkService (ws this) (msgId this) (reconnectTimer this) v
            (reconnectDelay this) (stopped this) (config this).
Definition set_reconnectDelay (v : Z) (this : HAWatcherService) :=
  mkService (ws this) (msgId this) (reconnectTimer this) (pingTimer this)
            v (stopped this) (config this).
Definition set_stopped (v : bool) (this : HAWatcherService) :=
  mkService (ws this) (msgId this) (reconnectTimer this) (pingTimer this)
            (reconnectDelay this) v (config this).

Section Platform.
(** The platform's [new WebSocket(url)]: a socket that is connecting, or
    an exception (a malformed URL). *)
Variable WebSocket_new : string -> Outcome WebSocket.

Abbreviation Task := (M Watcher).

Definition new_WebSocket (wsUrl : string) : Task WebSocket :=
  emit (NewWebSocket wsUrl) ;; lift (WebSocket_new wsUrl).

(** [ws.close()] *)
Definition ws_close (sock : WebSocket) : Task WebSocket :=
  emit WsClose ;; mret {| readyState := CLOSING |}.

Definition clearTimers (this : HAWatcherService) : Task HAWatcherService :=
  let* this :=
    match reconnectTimer this with
    | Some _ => emit ClearTimeout ;; mret (set_reconnectTimer None this)
    | None => mret this
    end in
  match pingTimer this with
  | Some _ => emit ClearInterval ;; mret (set_pingTimer None this)
  | None => mret this
  end.

Definition scheduleReconnect (this : HAWatcherService) : Task HAWatcherService :=
  if stopped this then mret this
  else
    let delay := reconnectDelay this in
    let this := set_reconnectDelay (Z.min (reconnectDelay this * 2) 30000) this in
    logger_info ("[ha-watcher] reconnecting in " +:+
                 pretty (round_div_1000 delay) +:+ "s") ;;
    emit (SetTimeout delay) ;;
    mret (set_reconnectTimer (Some delay) this).

Definition connect (this : HAWatcherService) : Task HAWatcherService :=
  if stopped this then mret this
  else
    let httpUrl := strip_trailing_slash (url (config this)) in
    let wsUrl := http_to_ws httpUrl +:+ "/api/websocket" in
    logger_info ("[ha-watcher] connecting to " +:+ wsUrl) ;;
    try_catch
      (let* sock := new_WebSocket wsUrl in
       mret (set_ws (Some sock) this))
      (fun err =>
         logger_error ("[ha-watcher] WebSocket constructor failed: " +:+ err) ;;
         scheduleReconnect this).

Definition start (this : HAWatcherService) : Task HAWatcherService :=
  connect (set_stopped false this).

Definition stop (this : HAWatcherService) : Task HAWatcherService :=
  let this := set_stopped true this in
  let* this := clearTimers this in
  match ws this with
  | Some sock =>
      try_catch (ws_close sock ;; mret tt) (fun _ => mret tt) ;;
      mret (set_ws None this)
  | None => mret this
  end.

Definition send (this : HAWatcherService) (msg : Outgoing) : Task unit :=
  match ws this with
  | None => mret tt
  | Some sock =>
      match readyState sock with
      | OPEN => emit (WsSend msg)
      | _ => mret tt
      end
  end.

Definition subscribeEvents (this : HAWatcherService) : Task HAWatcherService :=
  let this := set_msgId (msgId this + 1) this in
  send this (MsgSubscribeEvents (msgId this) "state_changed") ;;
  logger_info "[ha-watcher] subscribed to state_changed events" ;;
  mret this.

Definition startPing (this : HAWatcherService) : Task HAWatcherService :=
  emit (SetInterval 30000) ;;
  mret (set_pingTimer (Some 30000%Z) this).

(** The callback [startPing] installs. *)
Definition ping_callback (this : HAWatcherService) : Task HAWatcherService :=
  let this := set_msgId (msgId this + 1) this in
  send this (MsgPing (msgId this)) ;;
  mret this.

Definition call_enqueueSystemEvent (cfg : WatcherServiceConfig)
    (text sessionKey : string) : Task unit :=
  emit (EnqueueSystemEvent text sessionKey) ;;
  lift (enqueueSystemEvent cfg text sessionKey).

Definition handleStateChanged (this : HAWatcherService)
    (ev : HAStateChangedEvent) : Task unit :=
  let entity_id := entity_id (data ev) in
  match old_state (data ev), new_state (data ev) with
  | Some old_state, Some new_state =>
      let oldStateStr := state old_state in
      let newStateStr := state new_state in
      if String.eqb oldStateStr newStateStr then mret tt
      else
        let* watchers := loadWatchers (stateDir (config this)) in
        let matched :=
          List.filter
            (fun w => matchesWatcher w entity_id oldStateStr newStateStr)
            watchers in
        if (length matched =? 0)%nat then mret tt
        else
          let sessionKey := resolveSessionKey (config this) tt in
          if negb (truthy sessionKey) then
            logger_warn ("[ha-watcher] watcher matched for " +:+ entity_id +:+
                         " but no sessionKey available")
          else
            let sessionKey := nullish sessionKey "" in
            let friendlyName :=
              nullish (attributes new_state !! "friendly_name") entity_id in
            for_of matched (fun watcher =>
              let triggerText :=
                "[Home Assistant Event] " +:+ friendlyName +:+
                " (`" +:+ entity_id +:+ "`) " +:+
                "changed from " +:+ dq +:+ oldStateStr +:+ dq +:+
                " to " +:+ dq +:+ newStateStr +:+ dq +:+ "." +:+ nl +:+
                "Watcher message: " +:+ message watcher in
              logger_info ("[ha-watcher] triggered: " +:+ entity_id +:+ " " +:+
                           oldStateStr +:+ "→" +:+ newStateStr +:+ " → " +:+
                           dq +:+ message watcher +:+ dq) ;;
              try_catch
                (call_enqueueSystemEvent (config this) triggerText sessionKey)
                (fun err =>
                   logger_error
                     ("[ha-watcher] failed to enqueue system event: " +:+ err))) ;;
            let firedOneShotIds : gset string :=
              list_to_set (map id (List.filter oneShot matched)) in
            if (0 <? size firedOneShotIds)%nat then
              let remaining :=
                List.filter
                  (fun w => negb (bool_decide (id w ∈ firedOneShotIds)))
                  watchers in
              saveWatchers (stateDir (config this)) remaining ;;
              logger_info ("[ha-watcher] removed " +:+
                           pretty (size firedOneShotIds) +:+
                           " one-shot watcher(s)")
            else mret tt
  | _, _ => mret tt
  end.

Definition handleMessage (this : HAWatcherService)
    (msg : HAWebSocketMessage) : Task HAWatcherService :=
  match msg with
  | auth_required _ =>
      send this (MsgAuth (token (config this))) ;;
      mret this
  | auth_ok ha_version =>
      logger_info ("[ha-watcher] authenticated (HA " +:+ ha_version +:+ ")") ;;
      let* this := subscribeEvents this in
      startPing this
  | auth_invalid message =>
      logger_error ("[ha-watcher] auth failed: " +:+ message) ;;
      let this := set_stopped true this in
      match ws this with
      | Some sock =>
          let* sock := ws_close sock in
          mret (set_ws (Some sock) this)
      | None => mret this
      end
  | result id success error =>
      match success, error with
      | false, Some (_, error_message) =>
          logger_error ("[ha-watcher] command " +:+ pretty id +:+
                        " failed: " +:+ error_message) ;;
          mret this
      | _, _ => mret this
      end
  | event _ ev =>
      if String.eqb (event_type ev) "state_changed"
      then handleStateChanged this ev ;; mret this
      else mret this
  | pong _ => mret this
  end.

(** [JSON.parse(String(event.data)) as HAWebSocketMessage] *)
Definition parse_frame (payload : Frame) : Task HAWebSocketMessage :=
  match payload with
  | BadFrame _ => throw "SyntaxError: Unexpected token in JSON"
  | GoodFrame msg => mret msg
  end.

Definition onopen (this : HAWatcherService) : Task HAWatcherService :=
  logger_info "[ha-watcher] WebSocket connected" ;;
  mret (set_reconnectDelay 1000 this).

(** The handler started with [void this.handleMessage(msg)] runs outside
    the [try] that guards the parse, and its promise is dropped; here it runs
    to completion before the next event is taken.  It can reject only from
    the event handler's save, which comes after no assignment to [this]. *)
Definition onmessage (this : HAWatcherService) (payload : Frame)
  : Task HAWatcherService :=
  let* parsed :=
    try_catch
      (let* msg := parse_frame payload in mret (Some msg))
      (fun err =>
         logger_error ("[ha-watcher] failed to parse message: " +:+ err) ;;
         mret None) in
  match parsed with
  | Some msg => unawaited (handleMessage this msg) this
  | None => mret this
  end.

Definition onclose (this : HAWatcherService) : Task HAWatcherService :=
  logger_info "[ha-watcher] WebSocket closed" ;;
  let* this := clearTimers this in
  let this := set_ws None this in
  scheduleReconnect this.

Definition onerror (this : HAWatcherService) (description : string)
  : Task HAWatcherService :=
  logger_error ("[ha-watcher] WebSocket error: " +:+ description) ;;
  mret this.

(** The callback [scheduleReconnect] hands to [setTimeout]. *)
Definition reconnect_callback (this : HAWatcherService) : Task HAWatcherService :=
  let this := set_reconnectTimer None this in
  let this := set_msgId 0 this in
  connect this.

(** The platform moves the socket's [readyState] before it calls back. *)
Definition socket_becomes (st : ReadyState) (this : HAWatcherService)
  : HAWatcherService :=
  match ws this with
  | Some _ => set_ws (Some {| readyState := st |}) this
  | None => this
  end.

Definition step (this : HAWatcherService) (e : Event) : Task HAWatcherService :=
  match e with
  | EvStart => start this
  | EvStop => stop this
  | EvOpen => onopen (socket_becomes OPEN this)
  | EvMessage payload => onmessage this payload
  | EvClose => onclose (socket_becomes CLOSED this)
  | EvError description => onerror this description
  | EvReconnectTimer => reconnect_callback this
  | EvPingTimer => ping_callback this
  end.

Fixpoint run (this : HAWatcherService) (events : list Event)
  : Task HAWatcherService :=
  match events with
  | [] => mret this
  | e :: rest => let* this := step this e in run this rest
  end.
End Platform.

End WatcherService.

(** ** Listener service (listener-service.ts): external command

    Its connection methods are those of the watcher service with another log
    prefix; the event handler, which differs, is embedded here. *)

Module ListenerService.
Import ListenerStore.

Record ListenerServiceConfig : Type := {
  url : string;
  token : string;
  stateDir : string
}.

Record HAListenerService : Type := mkService {
  ws : option WebSocket;
  msgId : Z;
  reconnectTimer : option Z;
  pingTimer : option Z;
  reconnectDelay : Z;
  stopped : bool;
  config : ListenerServiceConfig
}.

Definition constructor (config : ListenerServiceConfig) : HAListenerService :=
  mkService None 0 None None 1000 false config.

Section Platform.
(** [child_process.exec(cmd, options, callback)]: spawns, or throws at
    once.  The callback runs after the handler has finished. *)
Variable child_process_exec : string -> Outcome unit.

Abbreviation Task := (M Listener).

Definition exec (cmd : string) (timeout : Z) : Task unit :=
  emit (Exec cmd timeout) ;; lift (child_process_exec cmd).

Definition handleStateChanged (this : HAListenerService)
    (ev : HAStateChangedEvent) : Task unit :=
  let entity_id := entity_id (data ev) in
  match old_state (data ev), new_state (data ev) with
  | Some old_state, Some new_state =>
      let oldStateStr := state old_state in
      let newStateStr := state new_state in
      if String.eqb oldStateStr newStateStr then mret tt
      else
        let* listeners := loadListeners (stateDir (config this)) in
        let matched :=
          List.filter
            (fun l => matchesListener l entity_id oldStateStr newStateStr)
            listeners in
        if (length matched =? 0)%nat then mret tt
        else
          let friendlyName :=
            nullish (attributes new_state !! "friendly_name") entity_id in
          for_of matched (fun listener =>
            let triggerText :=
              "[Home Assistant Event] " +:+ friendlyName +:+
              " (`" +:+ entity_id +:+ "`) " +:+
              "changed from " +:+ dq +:+ oldStateStr +:+ dq +:+
              " to " +:+ dq +:+ newStateStr +:+ dq +:+ "." +:+ nl +:+
              "Listener message: " +:+ message listener in
            logger_info ("[ha-listener] triggered: " +:+ entity_id +:+ " " +:+
                         oldStateStr +:+ "→" +:+ newStateStr +:+ " → " +:+
                         dq +:+ message listener +:+ dq) ;;
            let escapedMessage := replace_all_quotes "'''" triggerText in
            let cmd := "openclaw agent --agent main --message '" +:+
                       escapedMessage +:+ "'" in
            try_catch
              (exec cmd 120000)
              (fun err =>
                 logger_error
                   ("[ha-listener] failed to exec openclaw agent: " +:+ err))) ;;
          let firedOneShotIds : gset string :=
            list_to_set (map id (List.filter oneShot matched)) in
          if (0 <? size firedOneShotIds)%nat then
            let remaining :=
              List.filter
                (fun l => negb (bool_decide (id l ∈ firedOneShotIds)))
                listeners in
            saveListeners (stateDir (config this)) remaining ;;
            logger_info ("[ha-listener] removed " +:+
                         pretty (size firedOneShotIds) +:+
                         " one-shot listener(s)")
          else mret tt
  | _, _ => mret tt
  end.
End Platform.

End ListenerService.

(** ** Observations on worlds and journals *)

Section Observations.
Context {R : Type}.

(** The world once the effects [d] have been journalled. *)
Definition journalled (d : list Effect) (w : World R) : World R :=
  mkWorld (files w) (journal w ++ d) (entropy w) (drawn w) (now w)
          (disk w) (fs_calls w).

(** The world once [path] has been overwritten with the rule set [items],
    by an [fs.mkdir] and an [fs.writeFile] that both completed. *)
Definition overwritten (path : string) (items : list R) (w : World R) : World R :=
  mkWorld (<[path := Wellformed (JArray items)]> (files w))
          (journal w ++ [FsMkdir (path_dirname path); FsWrite path])
          (entropy w) (drawn w) (now w) (disk w) (S (S (fs_calls w))).

(** The disk completes the [n] calls that come next. *)
Fixpoint completes (answers : nat -> option Refusal) (next n : nat) : bool :=
  match n with
  | O => true
  | S n =>
      match answers next with
      | None => completes answers (S next) n
      | Some _ => false
      end
  end.

Definition accepts (n : nat) (w : World R) : Prop :=
  completes (disk w) (fs_calls w) n = true.

(** The error a save started in [w] is rejected with: that of its
    [fs.mkdir], else that of its [fs.writeFile]. *)
Definition save_error (w : World R) : option string :=
  match disk w (fs_calls w) with
  | Some refusal => Some (errno refusal)
  | None => option_map errno (disk w (S (fs_calls w)))
  end.

(** The world once the random source has been drawn from. *)
Definition drawn_once (w : World R) : World R :=
  mkWorld (files w) (journal w) (entropy w) (S (drawn w)) (now w)
          (disk w) (fs_calls w).

(** The rule set the file at [path] holds: its array, or nothing when the
    file is missing, unparsable or not an array. *)
Definition holds (path : string) (w : World R) : list R :=
  match files w !! path with
  | Some (Wellformed (JArray items)) => items
  | _ => []
  end.
End Observations.

(** Delays handed to [setTimeout], in order. *)
Definition scheduled_delays (j : list Effect) : list Z :=
  omap (fun e => match e with SetTimeout d => Some d | _ => None end) j.

(** URLs handed to [new WebSocket], in order. *)
Definition connection_attempts (j : list Effect) : list string :=
  omap (fun e => match e with NewWebSocket u => Some u | _ => None end) j.

(** Paths handed to [fs.writeFile], in order. *)
Definition file_writes (j : list Effect) : list string :=
  omap (fun e => match e with FsWrite p => Some p | _ => None end) j.

(** Trigger messages handed to a delivery sink, in order. *)
Definition deliveries (j : list Effect) : list string :=
  omap (fun e => match e with
                 | EnqueueSystemEvent text _ => Some text
                 | Exec cmd _ => Some cmd
                 | _ => None
                 end) j.

(** Effects of a delivery loop: log lines and calls to the sink. *)
Definition is_sink_effect (e : Effect) : Prop :=
  match e with
  | Log _ _ | EnqueueSystemEvent _ _ | Exec _ _ => True
  | _ => False
  end.

(** Effects of a save: calls to the disk. *)
Definition is_disk_effect (e : Effect) : Prop :=
  match e with
  | FsMkdir _ | FsWrite _ => True
  | _ => False
  end.

(** A computation that returns normally, touches no file and journals only
    sink effects. *)
Definition only_delivers {R} (m : M R unit) : Prop :=
  forall w : World R,
    exists d, m w = (Returned tt, journalled d w) /\ Forall is_sink_effect d.

(** The transition an event carries, when both snapshots are present. *)
Definition transition (ev : HAStateChangedEvent) : option (string * string * string) :=
  match old_state (data ev), new_state (data ev) with
  | Some o, Some n => Some (entity_id (data ev), state o, state n)
  | _, _ => None
  end.

(** The rules of [loaded] that match the event's transition. *)
Definition matched_watchers (ev : HAStateChangedEvent)
    (loaded : list WatcherStore.Watcher) : list WatcherStore.Watcher :=
  match transition ev with
  | Some (e, o, n) =>
      List.filter (fun r => WatcherStore.matchesWatcher r e o n) loaded
  | None => []
  end.

Definition matched_listeners (ev : HAStateChangedEvent)
    (loaded : list ListenerStore.Listener) : list ListenerStore.Listener :=
  match transition ev with
  | Some (e, o, n) =>
      List.filter (fun r => ListenerStore.matchesListener r e o n) loaded
  | None => []
  end.


Definition retire_listeners (ev : HAStateChangedEvent)
    (loaded : list ListenerStore.Listener) : list ListenerStore.Listener :=
  match transition ev with
  | Some (e, o, n) =>
      List.filter
        (fun r => negb (ListenerStore.matchesListener r e o n && ListenerStore.oneShot r))
        loaded
  | None => loaded
  end.

(** ** Specification-side definitions *)

(** A filter as the specification words it: unset, or equal to the state. *)
Definition unset_or_equals (filter : option string) (s : string) : Prop :=
  filter = None \/ filter = Some s.

(** A filter as the code tests it: an empty string counts as unset. *)
Definition unset_empty_or_equals (filter : option string) (s : string) : Prop :=
  filter = None \/ filter = Some EmptyString \/ filter = Some s.

(** The [k]-th reconnect delay ([k] from 1) in milliseconds; the time unit
    of the backoff is the second. *)
Definition nth_delay (k : nat) : Z := 1000 * Z.min (2 ^ (Z.of_nat k - 1)) 30.

(** What a callback of the session may do to the backoff, given the effects
    [d] it journalled: it keeps the configuration; once stopped, anything but
    [start()] leaves the session stopped and neither schedules a reconnect nor
    opens a socket; and it either schedules nothing, leaving the delay alone
    (an open resets it to 1000), or schedules one reconnect after the current
    delay and doubles the delay up to 30000. *)
Definition step_outcome (this : WatcherService.HAWatcherService) (e : Event)
    (this' : WatcherService.HAWatcherService) (d : list Effect) : Prop :=
  WatcherService.config this' = WatcherService.config this /\
  (WatcherService.stopped this = true -> is_start e = false ->
   WatcherService.stopped this' = true /\
   scheduled_delays d = [] /\ connection_attempts d = []) /\
  ((scheduled_delays d = [] /\
    WatcherService.reconnectDelay this' =
    if is_open e then 1000%Z else WatcherService.reconnectDelay this) \/
   (is_open e = false /\
    scheduled_delays d = [WatcherService.reconnectDelay this] /\
    WatcherService.reconnectDelay this' =
    Z.min (WatcherService.reconnectDelay this * 2) 30000)).

(** The URL [connect] hands to [new WebSocket]. *)
Definition endpoint (cfg : WatcherService.WatcherServiceConfig) : string :=
  http_to_ws (strip_trailing_slash (WatcherService.url cfg)) +:+ "/api/websocket".

(** No successful open among the events. *)
Definition open_free (events : list Event) : bool :=
  forallb (fun e => negb (is_open e)) events.

(** No [start()] among the events. *)
Definition start_free (events : list Event) : bool :=
  forallb (fun e => negb (is_start e)) events.

(** [n] attempts in a row that each end in a close before any open, the
    reconnect timer starting the next one. *)
Definition dropped_attempts (n : nat) : list Event :=
  concat (repeat [EvClose; EvReconnectTimer] n).

(** [n] further attempts in a row, each started by the reconnect timer. *)
Definition timer_attempts (n : nat) : list Event := repeat EvReconnectTimer n.

(** Whether the session is stopped once event [e] has been handled:
    [stop()] and an [auth_invalid] message stop it, [start()] starts it,
    nothing else changes it. *)
Definition stopped_after (e : Event) (stopped : bool) : bool :=
  match e with
  | EvStart => false
  | EvStop => true
  | EvMessage (GoodFrame (auth_invalid _)) => true
  | _ => stopped
  end.

(** Whether the platform refuses to construct a socket for the configured
    endpoint. *)
Definition refuses (ctor : string -> Outcome WebSocket)
    (cfg : WatcherService.WatcherServiceConfig) : bool :=
  match ctor (endpoint cfg) with
  | Thrown _ => true
  | Returned _ => false
  end.

(** Whether event [e] is a failed connection attempt of a session that is
    [stopped] or not: a socket that closes while the session is not
    stopped, or a socket that [start()] or the reconnect timer of a session
    that is not stopped could not construct. *)
Definition fails (refused stopped : bool) (e : Event) : bool :=
  match e with
  | EvClose => negb stopped
  | EvStart => refused
  | EvReconnectTimer => negb stopped && refused
  | _ => false
  end.

(** The number of failed connection attempts in a run of events. *)
Fixpoint failed_attempts (refused stopped : bool) (events : list Event) : nat :=
  match events with
  | [] => 0
  | e :: rest =>
      (if fails refused stopped e then 1 else 0) +
      failed_attempts refused (stopped_after e stopped) rest
  end.

(** The id [add] would assign in world [w]. *)
Definition next_id {R} (w : World R) : string :=
  slice0 8 (UUID_toString (entropy w (drawn w))).

(** The wall clock moves on. *)
Definition at_time {R} (t : Instant) (w : World R) : World R :=
  mkWorld (files w) (journal w) (entropy w) (drawn w) t (disk w) (fs_calls w).

(** Store states producible from the empty store by add, remove and
    event-driven retirement, where [add] is taken only in worlds that
    satisfy [admissible]. *)
Inductive watcher_states (admissible : World WatcherStore.Watcher -> Prop)
    (dir : string) : World WatcherStore.Watcher -> Prop :=
| watcher_empty w :
    files w !! WatcherStore.resolveWatchersPath dir = None ->
    watcher_states admissible dir w
| watcher_added w input :
    watcher_states admissible dir w ->
    admissible w ->
    watcher_states admissible dir (snd (WatcherStore.addWatcher dir input w))
| watcher_removed w target :
    watcher_states admissible dir w ->
    watcher_states admissible dir (snd (WatcherStore.removeWatcher dir target w))
| watcher_handled w this ev :
    watcher_states admissible dir w ->
    WatcherService.stateDir (WatcherService.config this) = dir ->
    watcher_states admissible dir (snd (WatcherService.handleStateChanged this ev w))
| watcher_later w t :
    watcher_states admissible dir w ->
    watcher_states admissible dir (at_time t w).

Inductive listener_states (admissible : World ListenerStore.Listener -> Prop)
    (dir : string) : World ListenerStore.Listener -> Prop :=
| listener_empty w :
    files w !! ListenerStore.resolveListenersPath dir = None ->
    listener_states admissible dir w
| listener_added w input :
    listener_states admissible dir w ->
    admissible w ->
    listener_states admissible dir (snd (ListenerStore.addListener dir input w))
| listener_removed w target :
    listener_states admissible dir w ->
    listener_states admissible dir (snd (ListenerStore.removeListener dir target w))
| listener_handled w spawn this ev :
    listener_states admissible dir w ->
    ListenerService.stateDir (ListenerService.config this) = dir ->
    listener_states admissible dir
      (snd (ListenerService.handleStateChanged spawn this ev w))
| listener_later w t :
    listener_states admissible dir w ->
    listener_states admissible dir (at_time t w).

(** Every reachable store state, as the specification has it. *)
Definition watcher_reachable := watcher_states (fun _ => True).
Definition listener_reachable := listener_states (fun _ => True).

(** The drawn id is not yet in the store at [dir]. *)
Definition fresh_watcher_draw (dir : string) (w : World WatcherStore.Watcher) : Prop :=
  next_id w ∉ map WatcherStore.id (holds (WatcherStore.resolveWatchersPath dir) w).

Definition fresh_listener_draw (dir : string) (w : World ListenerStore.Listener) : Prop :=
  next_id w ∉ map ListenerStore.id (holds (ListenerStore.resolveListenersPath dir) w).

(** Renaming a listener record into a watcher record. *)
Definition Listener_as_Watcher (l : ListenerStore.Listener) : WatcherStore.Watcher :=
  {| WatcherStore.id := ListenerStore.id l;
     WatcherStore.entityId := ListenerStore.entityId l;
     WatcherStore.fromState := ListenerStore.fromState l;
     WatcherStore.toState := ListenerStore.toState l;
     WatcherStore.message := ListenerStore.message l;
     WatcherStore.oneShot := ListenerStore.oneShot l;
     WatcherStore.createdAt := ListenerStore.createdAt l |}.

Definition Watcher_as_Listener (w : WatcherStore.Watcher) : ListenerStore.Listener :=
  {| ListenerStore.id := WatcherStore.id w;
     ListenerStore.entityId := WatcherStore.entityId w;
     ListenerStore.fromState := WatcherStore.fromState w;
     ListenerStore.toState := WatcherStore.toState w;
     ListenerStore.message := WatcherStore.message w;
     ListenerStore.oneShot := WatcherStore.oneShot w;
     ListenerStore.createdAt := WatcherStore.createdAt w |}.

(** ** Sample data *)

Module Sample.

(** A rule whose [fromState] is set to the empty string. *)
Definition empty_from_watcher : WatcherStore.Watcher :=
  {| WatcherStore.id := "0a1b2c3d";
     WatcherStore.entityId := "light.bedroom";
     WatcherStore.fromState := Some EmptyString;
     WatcherStore.toState := Some "on"%string;
     WatcherStore.message := "commit git";
     WatcherStore.oneShot := true;
     WatcherStore.createdAt := "2026-01-01T00:00:00.000Z" |}.

Definition clock : Instant :=
  {| iso_date := "2026-01-01"; iso_time := "00:00:00.000" |}.

(** Two draws of [crypto.randomUUID()] that differ, and two that agree on
    their first eight digits. *)
Definition distinct_draws (i : nat) : N :=
  match i with
  | O => 0x550e8400e29b41d4a716446655440000%N
  | _ => 0x6ba7b8109dad41d180b400c04fd430c8%N
  end.

Definition colliding_draws (i : nat) : N :=
  match i with
  | O => 0x550e8400e29b41d4a716446655440000%N
  | _ => 0x550e84001c2a4f0b9d3e7a5b6c8d9e0f%N
  end.

(** A disk that completes every call. *)
Definition sound_disk (call : nat) : option Refusal := None.




(** A world with no file at all. *)
Definition blank {R} (draws : nat -> N) : World R :=
  mkWorld ∅ [] draws 0 clock sound_disk 0.

(** A world whose only file is [path], with content [c]. *)
Definition with_file {R} (path : string) (c : Content R) : World R :=
  mkWorld {[ path := c ]} [] distinct_draws 0 clock sound_disk 0.


Definition state_dir : string := "/var/lib/openclaw".

(** The two rules of the specification's example. *)
Definition bedroom_on_once : WatcherStore.Watcher :=
  {| WatcherStore.id := "aaaa1111";
     WatcherStore.entityId := "light.bedroom";
     WatcherStore.fromState := None;
     WatcherStore.toState := Some "on"%string;
     WatcherStore.message := "commit git";
     WatcherStore.oneShot := true;
     WatcherStore.createdAt := "2026-01-01T00:00:00.000Z" |}.

Definition bedroom_always : WatcherStore.Watcher :=
  {| WatcherStore.id := "bbbb2222";
     WatcherStore.entityId := "light.bedroom";
     WatcherStore.fromState := None;
     WatcherStore.toState := None;
     WatcherStore.message := "notify me";
     WatcherStore.oneShot := false;
     WatcherStore.createdAt := "2026-01-01T00:00:00.000Z" |}.

(** A rule on another entity that carries the id of [bedroom_on_once]. *)
Definition kitchen_namesake : WatcherStore.Watcher :=
  {| WatcherStore.id := "aaaa1111";
     WatcherStore.entityId := "light.kitchen";
     WatcherStore.fromState := None;
     WatcherStore.toState := None;
     WatcherStore.message := "kitchen";
     WatcherStore.oneShot := false;
     WatcherStore.createdAt := "2026-01-02T00:00:00.000Z" |}.

Definition snapshot (s : string) : StateSnapshot :=
  {| state := s; attributes := {[ "friendly_name"%string := "Bedroom"%string ]} |}.

Definition change (entity : string) (o n : option string) : HAStateChangedEvent :=
  {| event_type := "state_changed";
     data := {| entity_id := entity;
                old_state := option_map snapshot o;
                new_state := option_map snapshot n |} |}.

(** The bedroom light goes from off to on. *)
Definition turned_on : HAStateChangedEvent :=
  change "light.bedroom" (Some "off"%string) (Some "on"%string).

Definition watcher_world (rules : list WatcherStore.Watcher)
  : World WatcherStore.Watcher :=
  with_file (WatcherStore.resolveWatchersPath state_dir) (Wellformed (JArray rules)).

Definition listener_world (rules : list ListenerStore.Listener)
  : World ListenerStore.Listener :=
  with_file (ListenerStore.resolveListenersPath state_dir) (Wellformed (JArray rules)).

Definition watcher_config (session : option string)
  : WatcherService.WatcherServiceConfig :=
  {| WatcherService.url := "http://homeassistant.local:8123/";
     WatcherService.token := "secret";
     WatcherService.stateDir := state_dir;
     WatcherService.enqueueSystemEvent := fun _ _ => Returned tt;
     WatcherService.resolveSessionKey := fun _ => session |}.

Definition listener_config : ListenerService.ListenerServiceConfig :=
  {| ListenerService.url := "http://homeassistant.local:8123/";
     ListenerService.token := "secret";
     ListenerService.stateDir := state_dir |}.

Definition watcher_service (session : option string) :=
  WatcherService.constructor (watcher_config session).

Definition listener_service := ListenerService.constructor listener_config.

Definition spawn_ok (cmd : string) : Outcome unit := Returned tt.

Definition socket_ok (wsUrl : string) : Outcome WebSocket :=
  Returned {| readyState := CONNECTING |}.

Definition socket_refused (wsUrl : string) : Outcome WebSocket :=
  Thrown "SyntaxError: The URL is invalid".

Definition sample_input (entity : string) : WatcherStore.WatcherInput :=
  {| WatcherStore.in_entityId := entity;
     WatcherStore.in_fromState := None;
     WatcherStore.in_toState := Some "on"%string;
     WatcherStore.in_message := "commit git";
     WatcherStore.in_oneShot := true |}.

(** Two rules added to an empty store. *)
Definition added_twice (draws : nat -> N) : World WatcherStore.Watcher :=
  snd (WatcherStore.addWatcher state_dir (sample_input "light.kitchen")
         (snd (WatcherStore.addWatcher state_dir (sample_input "light.bedroom")
                 (blank draws)))).

(** A session whose socket is open. *)
Definition connected_service : WatcherService.HAWatcherService :=
  WatcherService.mkService (Some {| readyState := OPEN |}) 0 None None 1000 false
    (watcher_config (Some "main"%string)).

End Sample.

(** How a rule without an effective filter is displayed. *)
Definition unfiltered_watcher_display (w : WatcherStore.Watcher) : string :=
  "[" +:+ WatcherStore.id w +:+ "] `" +:+ WatcherStore.entityId w +:+
  "` any state change (" +:+
  (if WatcherStore.oneShot w then "one-shot" else "recurring") +:+
  ") → " +:+ dq +:+ WatcherStore.message w +:+ dq.

Definition unfiltered_listener_display (l : ListenerStore.Listener) : string :=
  "[" +:+ ListenerStore.id l +:+ "] `" +:+ ListenerStore.entityId l +:+
  "` any state change (" +:+
  (if ListenerStore.oneShot l then "one-shot" else "recurring") +:+
  ") → " +:+ dq +:+ ListenerStore.message l +:+ dq.



(** Messages handed to [ws.send], in order. *)
Definition sent (j : list Effect) : list Outgoing :=
  omap (fun e => match e with WsSend m => Some m | _ => None end) j.


(** The command line the listener variant spawns for a trigger text. *)
Definition agent_command (text : string) : string :=
  "openclaw agent --agent main --message '" +:+
  replace_all_quotes "'''" text +:+ "'".

(** Ids of the commands (subscribe, ping) handed to [ws.send], in order. *)
Definition sent_ids (j : list Effect) : list Z :=
  omap (fun e => match e with
                 | WsSend (MsgSubscribeEvents i _) => Some i
                 | WsSend (MsgPing i) => Some i
                 | _ => None
                 end) j.

(** [l] is strictly increasing and starts above [m]. *)
Fixpoint increasing_from (m : Z) (l : list Z) : Prop :=
  match l with
  | [] => True
  | x :: rest => (m < x)%Z /\ increasing_from x rest
  end.

(** No firing of the reconnect timer among the events. *)
Definition same_connection (events : list Event) : bool :=
  forallb (fun e => match e with EvReconnectTimer => false | _ => true end) events.

(** The session holds no socket, or one that is not open. *)
Definition not_open (this : WatcherService.HAWatcherService) : Prop :=
  forall sock, WatcherService.ws this = Some sock -> readyState sock <> OPEN.

(** Frames that are neither an [auth_ok] nor an [auth_invalid] message. *)
Definition leaves_session_alone (payload : Frame) : bool :=
  match payload with
  | GoodFrame (auth_ok _) | GoodFrame (auth_invalid _) => false
  | _ => true
  end.

(** Number of apostrophes in a string. *)
Fixpoint apostrophes (s : string) : nat :=
  match s with
  | EmptyString => 0
  | String c rest => (if Ascii.eqb c "'" then 1 else 0) + apostrophes rest
  end.

(** ** The [ha_listen] tool (tools.ts) *)

Module Tools.

(** The fields of an entity the tool reads. *)
Record HAEntity : Type := {
  state : string;
  attributes : gmap string string
}.

(** The client as the tool sees it: [getState] gives [null] for a blocked
    entity and for a request that failed, and never throws. *)
Record HAClient : Type := {
  isConfigured : bool;
  getState : string -> option HAEntity
}.

(** The parameters of a call; an absent property is [None]. *)
Record Params : Type := {
  action : option string;
  entity_id : option string;
  to_state : option string;
  from_state : option string;
  message : option string;
  one_shot : option bool;
  listener_id : option string
}.

(** [createHaListenToolDef(stateDir, client).execute] *)
Definition execute (stateDir : string) (client : HAClient) (params : Params)
  : M ListenerStore.Listener string :=
  if negb (isConfigured client) then mret "Home Assistant is not configured."
  else
    if bool_decide (action params = Some "add"%string) then
      let entityId := entity_id params in
      let message := message params in
      if negb (truthy entityId) || negb (truthy message) then
        mret "Both entity_id and message are required for 'add'."
      else
        let entityId := nullish entityId "" in
        let message := nullish message "" in
        match getState client entityId with
        | None =>
            mret ("Entity " +:+ dq +:+ entityId +:+ dq +:+
                  " not found or is blocked by ACL. Check the entity_id.")
        | Some entity =>
            let* listener :=
              ListenerStore.addListener stateDir
                {| ListenerStore.in_entityId := entityId;
                   ListenerStore.in_toState := to_state params;
                   ListenerStore.in_fromState := from_state params;
                   ListenerStore.in_message := message;
                   ListenerStore.in_oneShot := default true (one_shot params) |} in
            let friendlyName :=
              nullish (attributes entity !! "friendly_name"%string) entityId in
            let mode :=
              if ListenerStore.oneShot listener then "one-shot" else "recurring" in
            mret ("✅ Listener created (" +:+ mode +:+ "):" +:+ nl +:+
                  "  ID: " +:+ ListenerStore.id listener +:+ nl +:+
                  "  Entity: " +:+ friendlyName +:+ " (`" +:+ entityId +:+
                  "`), current state: " +:+ dq +:+ state entity +:+ dq +:+ nl +:+
                  (if truthy (ListenerStore.toState listener)
                   then "  Trigger when → " +:+ dq +:+
                        nullish (ListenerStore.toState listener) "" +:+ dq +:+ nl
                   else "") +:+
                  (if truthy (ListenerStore.fromState listener)
                   then "  Trigger from " +:+ dq +:+
                        nullish (ListenerStore.fromState listener) "" +:+ dq +:+
                        " →" +:+ nl
                   else "") +:+
                  "  Message: " +:+ ListenerStore.message listener)
        end
    else if bool_decide (action params = Some "list"%string) then
      let* listeners := ListenerStore.loadListeners stateDir in
      if (length listeners =? 0)%nat then mret "No active listeners."
      else
        mret ("**" +:+ pretty (length listeners) +:+ " active listener(s):**" +:+ nl +:+
              join nl (map ListenerStore.formatListener listeners))
    else if bool_decide (action params = Some "remove"%string) then
      let id := listener_id params in
      if negb (truthy id) then mret "listener_id is required for 'remove'."
      else
        let id := nullish id "" in
        let* removed := ListenerStore.removeListener stateDir id in
        mret (if removed : bool
              then "✅ Listener " +:+ id +:+ " removed."
              else "Listener " +:+ dq +:+ id +:+ dq +:+ " not found.")
    else
      mret ("Unknown action " +:+ dq +:+ nullish (action params) "undefined" +:+ dq +:+
            ". Use: add, list, remove.").

End Tools.

(** Calls of the tool that are turned down: the client is not configured,
    an [add] lacks its entity or its message or names an entity the client
    does not return, a [remove] lacks its id, or the action is none of the
    three. *)
Definition turned_down (client : Tools.HAClient) (params : Tools.Params) : Prop :=
  Tools.isConfigured client = false \/
  (Tools.action params = Some "add"%string /\
   (truthy (Tools.entity_id params) = false \/
    truthy (Tools.message params) = false \/
    Tools.getState client (nullish (Tools.entity_id params) "") = None)) \/
  (Tools.action params = Some "remove"%string /\
   truthy (Tools.listener_id params) = false) \/
  (Tools.action params <> Some "add"%string /\
   Tools.action params <> Some "list"%string /\
   Tools.action params <> Some "remove"%string).

Module ToolSample.

(** A configured client that knows the bedroom light only. *)
Definition client : Tools.HAClient :=
  {| Tools.isConfigured := true;
     Tools.getState := fun entityId =>
       if String.eqb entityId "light.bedroom"
       then Some {| Tools.state := "off";
                    Tools.attributes := {[ "friendly_name"%string := "Bedroom"%string ]} |}
       else None |}.

Definition call (action : string) : Tools.Params :=
  {| Tools.action := Some action;
     Tools.entity_id := None;
     Tools.to_state := None;
     Tools.from_state := None;
     Tools.message := None;
     Tools.one_shot := None;
     Tools.listener_id := None |}.

(** [{ action: "add", entity_id, to_state: "on", message: "commit git" }] *)
Definition add (entity : string) : Tools.Params :=
  {| Tools.action := Some "add"%string;
     Tools.entity_id := Some entity;
     Tools.to_state := Some "on"%string;
     Tools.from_state := None;
     Tools.message := Some "commit git"%string;
     Tools.one_shot := None;
     Tools.listener_id := None |}.


End ToolSample.

(** * Properties *)

(** ** Strings and truthiness *)

Lemma truthy_false_iff (o : option string) :
  truthy o = false <-> o = None \/ o = Some EmptyString.
Proof.
  destruct o as [s|]; simpl.
  - unfold truthy_string. destruct (String.eqb_spec s "") as [->|Hne]; simpl.
    + split; [auto | reflexivity].
    + split; [discriminate | intros [H|H]; [discriminate | congruence]].
  - split; [auto | reflexivity].
Qed.

Lemma filter_passes_iff (c : option string) (s : string) :
  truthy c && negb (String.eqb (nullish c "") s) = false
  <-> unset_empty_or_equals c s.
Proof.
  unfold unset_empty_or_equals. rewrite andb_false_iff, truthy_false_iff, negb_false_iff.
  split.
  - intros [[->| ->]|H]; auto.
    destruct c as [t|]; simpl in H; auto.
    apply String.eqb_eq in H. subst. auto.
  - intros [->|[->| ->]]; auto. right. simpl. apply String.eqb_refl.
Qed.

(** ** Matching (C1, C9) *)

Lemma matchesWatcher_iff (w : WatcherStore.Watcher) (e o n : string) :
  WatcherStore.matchesWatcher w e o n = true <->
  WatcherStore.entityId w = e /\ o <> n /\
  unset_empty_or_equals (WatcherStore.fromState w) o /\
  unset_empty_or_equals (WatcherStore.toState w) n.
Proof.
  unfold WatcherStore.matchesWatcher.
  rewrite <- !filter_passes_iff.
  destruct (String.eqb_spec (WatcherStore.entityId w) e) as [He|He]; simpl;
    [|split; [discriminate | tauto]].
  destruct (String.eqb_spec o n) as [Hon|Hon];
    [split; [discriminate | tauto]|].
  destruct (truthy (WatcherStore.fromState w) && _);
    [split; [discriminate | intros (_ & _ & H & _); discriminate]|].
  destruct (truthy (WatcherStore.toState w) && _);
    [split; [discriminate | intros (_ & _ & _ & H); discriminate]|].
  tauto.
Qed.

Lemma matchesListener_iff (l : ListenerStore.Listener) (e o n : string) :
  ListenerStore.matchesListener l e o n = true <->
  ListenerStore.entityId l = e /\ o <> n /\
  unset_empty_or_equals (ListenerStore.fromState l) o /\
  unset_empty_or_equals (ListenerStore.toState l) n.
Proof.
  unfold ListenerStore.matchesListener.
  rewrite <- !filter_passes_iff.
  destruct (String.eqb_spec (ListenerStore.entityId l) e) as [He|He]; simpl;
    [|split; [discriminate | tauto]].
  destruct (String.eqb_spec o n) as [Hon|Hon];
    [split; [discriminate | tauto]|].
  destruct (truthy (ListenerStore.fromState l) && _);
    [split; [discriminate | intros (_ & _ & H & _); discriminate]|].
  destruct (truthy (ListenerStore.toState l) && _);
    [split; [discriminate | intros (_ & _ & _ & H); discriminate]|].
  tauto.
Qed.

(** C1 (amended): for every rule and every transition, [matchesWatcher] and
    [matchesListener] return true if and only if the rule's entity id equals
    the event's, the old state differs from the new one, [fromState] is unset,
    empty or equal to the old state, and [toState] is unset, empty or equal to
    the new state. *)
Theorem C1_matches_iff_filters_pass :
  (forall (w : WatcherStore.Watcher) (e o n : string),
      WatcherStore.matchesWatcher w e o n = true <->
      WatcherStore.entityId w = e /\ o <> n /\
      unset_empty_or_equals (WatcherStore.fromState w) o /\
      unset_empty_or_equals (WatcherStore.toState w) n) /\
  (forall (l : ListenerStore.Listener) (e o n : string),
      ListenerStore.matchesListener l e o n = true <->
      ListenerStore.entityId l = e /\ o <> n /\
      unset_empty_or_equals (ListenerStore.fromState l) o /\
      unset_empty_or_equals (ListenerStore.toState l) n).
Proof.
  split; intros; [apply matchesWatcher_iff | apply matchesListener_iff].
Qed.

(** C1 as stated fails: a rule with [fromState] set to the empty string and
    [toState] set to "on" matches the transition off -> on, although its
    [fromState] is neither unset nor equal to "off". *)
Lemma C1_empty_filter_counterexample :
  WatcherStore.matchesWatcher Sample.empty_from_watcher "light.bedroom" "off" "on" = true /\
  ~ (WatcherStore.entityId Sample.empty_from_watcher = "light.bedroom"%string /\
     "off"%string <> "on"%string /\
     unset_or_equals (WatcherStore.fromState Sample.empty_from_watcher) "off" /\
     unset_or_equals (WatcherStore.toState Sample.empty_from_watcher) "on").
Proof.
  split; [reflexivity|].
  intros (_ & _ & [H|H] & _); discriminate H.
Qed.

(** C9: the pure rule logic of the two variants coincides under the renaming
    of the record type: the matching predicates return the same boolean and
    the formatters the same display string. *)
Theorem C9_variants_coincide :
  (forall (l : ListenerStore.Listener) (e o n : string),
      ListenerStore.matchesListener l e o n =
      WatcherStore.matchesWatcher (Listener_as_Watcher l) e o n) /\
  (forall l : ListenerStore.Listener,
      ListenerStore.formatListener l =
      WatcherStore.formatWatcher (Listener_as_Watcher l)) /\
  (forall (w : WatcherStore.Watcher) (e o n : string),
      WatcherStore.matchesWatcher w e o n =
      ListenerStore.matchesListener (Watcher_as_Listener w) e o n) /\
  (forall w : WatcherStore.Watcher,
      WatcherStore.formatWatcher w =
      ListenerStore.formatListener (Watcher_as_Listener w)) /\
  (forall l, Watcher_as_Listener (Listener_as_Watcher l) = l) /\
  (forall w, Listener_as_Watcher (Watcher_as_Listener w) = w).
Proof.
  repeat apply conj.
  - intros [] e o n. reflexivity.
  - intros []. reflexivity.
  - intros [] e o n. reflexivity.
  - intros []. reflexivity.
  - intros []. reflexivity.
  - intros []. reflexivity.
Qed.

(** ** The store: what the CRUD operations compute *)

Section StoreRuns.
Context {R : Type}.

Lemma journalled_nil (w : World R) : journalled [] w = w.
Proof. destruct w. unfold journalled. simpl. by rewrite app_nil_r. Qed.

Lemma journalled_app (d1 d2 : list Effect) (w : World R) :
  journalled d2 (journalled d1 w) = journalled (d1 ++ d2) w.
Proof. unfold journalled. simpl. by rewrite app_assoc. Qed.

Lemma emit_run (e : Effect) (w : World R) :
  emit e w = (Returned tt, journalled [e] w).
Proof. reflexivity. Qed.

Lemma holds_journalled (path : string) (d : list Effect) (w : World R) :
  holds path (journalled d w) = holds path w.
Proof. reflexivity. Qed.

Lemma holds_overwritten (path : string) (items : list R) (w : World R) :
  holds path (overwritten path items w) = items.
Proof. unfold holds, overwritten. simpl. by rewrite lookup_insert_eq. Qed.


Lemma accepts_two (w : World R) :
  accepts 2 w <->
  disk w (fs_calls w) = None /\ disk w (S (fs_calls w)) = None.
Proof.
  unfold accepts. simpl.
  destruct (disk w (fs_calls w)); [split; [discriminate|by intros [? _]]|].
  destruct (disk w (S (fs_calls w))); [split; [discriminate|by intros [_ ?]]|].
  done.
Qed.

Lemma save_error_accepts (w : World R) : save_error w = None <-> accepts 2 w.
Proof.
  rewrite accepts_two. unfold save_error.
  destruct (disk w (fs_calls w)); [split; [discriminate|by intros [? _]]|].
  destruct (disk w (S (fs_calls w))); simpl; [split; [discriminate|by intros [_ ?]]|].
  done.
Qed.





(** What [save] does with the file at [path]: the two calls complete, or
    the first that is refused rejects the save. *)
Lemma save_completes (path : string) (items : list R) (w : World R) :
  accepts 2 w ->
  (fs_mkdir_recursive (path_dirname path) ;;
   fs_writeFile path (JSON_stringify_line items)) w
  = (Returned tt, overwritten path items w).
Proof.
  intros [H1 H2]%accepts_two.
  unfold mbind, fs_mkdir_recursive, fs_writeFile, overwritten, JSON_stringify_line.
  rewrite H1. simpl. rewrite H2. simpl. by rewrite <- app_assoc.
Qed.

Lemma save_refused (path : string) (items : list R) (w : World R) (e : string) :
  save_error w = Some e ->
  exists w',
    (fs_mkdir_recursive (path_dirname path) ;;
     fs_writeFile path (JSON_stringify_line items)) w = (Thrown e, w') /\
    (journal w' = journal w ++ [FsMkdir (path_dirname path)] \/
     journal w' = journal w ++ [FsMkdir (path_dirname path); FsWrite path]) /\
    (files w' !! path = files w !! path \/
     (exists text, files w' !! path = Some (Malformed text)) \/
     files w' !! path = Some (Wellformed (JArray items))) /\
    (forall p, p <> path -> files w' !! p = files w !! p) /\
    entropy w' = entropy w /\ drawn w' = drawn w /\ now w' = now w /\
    disk w' = disk w.
Proof.
  unfold save_error, mbind, fs_mkdir_recursive, fs_writeFile, JSON_stringify_line.
  destruct (disk w (fs_calls w)) as [r1|] eqn:H1.
  - intros [= <-]. eexists. split; [reflexivity|]. simpl. tauto.
  - simpl. destruct (disk w (S (fs_calls w))) as [r2|] eqn:H2; [|discriminate].
    simpl. intros [= <-]. eexists. split; [reflexivity|]. simpl.
    rewrite <- app_assoc. split; [by right|].
    destruct (leftover r2) as [|text|]; simpl.
    + repeat split; tauto.
    + rewrite lookup_insert_eq. repeat split; eauto.
      intros p Hp. by rewrite lookup_insert_ne.
    + rewrite lookup_insert_eq. repeat split; eauto.
      intros p Hp. by rewrite lookup_insert_ne.
Qed.

Lemma save_cases (w : World R) :
  accepts 2 w \/ exists e, save_error w = Some e.
Proof.
  destruct (save_error w) as [e|] eqn:He; [eauto|].
  left. by apply save_error_accepts.
Qed.

Lemma holds_after_refusal (path : string) (items : list R) (w w' : World R) :
  (files w' !! path = files w !! path \/
   (exists text, files w' !! path = Some (Malformed text)) \/
   files w' !! path = Some (Wellformed (JArray items))) ->
  holds path w' = holds path w \/ holds path w' = [] \/ holds path w' = items.
Proof.
  unfold holds. intros [->|[[text ->]| ->]]; auto.
Qed.

End StoreRuns.

Lemma loadWatchers_run (dir : string) (w : World WatcherStore.Watcher) :
  WatcherStore.loadWatchers dir w =
  (Returned (holds (WatcherStore.resolveWatchersPath dir) w), w).
Proof.
  unfold WatcherStore.loadWatchers, try_catch, mbind, fs_readFile, holds.
  destruct (files w !! _) as [[text|[]]|]; reflexivity.
Qed.

Lemma loadListeners_run (dir : string) (w : World ListenerStore.Listener) :
  ListenerStore.loadListeners dir w =
  (Returned (holds (ListenerStore.resolveListenersPath dir) w), w).
Proof.
  unfold ListenerStore.loadListeners, try_catch, mbind, fs_readFile, holds.
  destruct (files w !! _) as [[text|[]]|]; reflexivity.
Qed.

Lemma saveWatchers_run (dir : string) (items : list WatcherStore.Watcher)
    (w : World WatcherStore.Watcher) :
  accepts 2 w ->
  WatcherStore.saveWatchers dir items w =
  (Returned tt, overwritten (WatcherStore.resolveWatchersPath dir) items w).
Proof. apply save_completes. Qed.

Lemma saveListeners_run (dir : string) (items : list ListenerStore.Listener)
    (w : World ListenerStore.Listener) :
  accepts 2 w ->
  ListenerStore.saveListeners dir items w =
  (Returned tt, overwritten (ListenerStore.resolveListenersPath dir) items w).
Proof. apply save_completes. Qed.

Lemma saveWatchers_refused (dir : string) (items : list WatcherStore.Watcher)
    (w : World WatcherStore.Watcher) (e : string) :
  let path := WatcherStore.resolveWatchersPath dir in
  save_error w = Some e ->
  exists w',
    WatcherStore.saveWatchers dir items w = (Thrown e, w') /\
    (journal w' = journal w ++ [FsMkdir (path_dirname path)] \/
     journal w' = journal w ++ [FsMkdir (path_dirname path); FsWrite path]) /\
    (files w' !! path = files w !! path \/
     (exists text, files w' !! path = Some (Malformed text)) \/
     files w' !! path = Some (Wellformed (JArray items))) /\
    (forall p, p <> path -> files w' !! p = files w !! p) /\
    entropy w' = entropy w /\ drawn w' = drawn w /\ now w' = now w /\
    disk w' = disk w.
Proof. intros path. apply save_refused. Qed.

Lemma saveListeners_refused (dir : string) (items : list ListenerStore.Listener)
    (w : World ListenerStore.Listener) (e : string) :
  let path := ListenerStore.resolveListenersPath dir in
  save_error w = Some e ->
  exists w',
    ListenerStore.saveListeners dir items w = (Thrown e, w') /\
    (journal w' = journal w ++ [FsMkdir (path_dirname path)] \/
     journal w' = journal w ++ [FsMkdir (path_dirname path); FsWrite path]) /\
    (files w' !! path = files w !! path \/
     (exists text, files w' !! path = Some (Malformed text)) \/
     files w' !! path = Some (Wellformed (JArray items))) /\
    (forall p, p <> path -> files w' !! p = files w !! p) /\
    entropy w' = entropy w /\ drawn w' = drawn w /\ now w' = now w /\
    disk w' = disk w.
Proof. intros path. apply save_refused. Qed.

(** ** Loading fails open (C5) *)

Lemma holds_not_stored {R} (path : string) (w : World R) :
  files w !! path = None \/
  (exists text, files w !! path = Some (Malformed text)) \/
  (exists v, files w !! path = Some (Wellformed v) /\ Array_isArray v = false) ->
  holds path w = [].
Proof.
  unfold holds.
  intros [->|[[text ->]|(v & -> & Hv)]]; try reflexivity.
  destruct v; try reflexivity. discriminate Hv.
Qed.

(** C5: for every state directory, [loadWatchers] and [loadListeners] return
    the empty sequence, and never throw, when the backing file is absent, when
    its content does not parse as JSON, and when it parses to a value that is
    not an array; on any file they return without throwing. *)
Theorem C5_load_fails_open :
  (forall (dir : string) (w : World WatcherStore.Watcher),
      (exists items, WatcherStore.loadWatchers dir w = (Returned items, w)) /\
      (files w !! WatcherStore.resolveWatchersPath dir = None \/
       (exists text,
           files w !! WatcherStore.resolveWatchersPath dir = Some (Malformed text)) \/
       (exists v,
           files w !! WatcherStore.resolveWatchersPath dir = Some (Wellformed v) /\
           Array_isArray v = false) ->
       WatcherStore.loadWatchers dir w = (Returned [], w))) /\
  (forall (dir : string) (w : World ListenerStore.Listener),
      (exists items, ListenerStore.loadListeners dir w = (Returned items, w)) /\
      (files w !! ListenerStore.resolveListenersPath dir = None \/
       (exists text,
           files w !! ListenerStore.resolveListenersPath dir = Some (Malformed text)) \/
       (exists v,
           files w !! ListenerStore.resolveListenersPath dir = Some (Wellformed v) /\
           Array_isArray v = false) ->
       ListenerStore.loadListeners dir w = (Returned [], w))).
Proof.
  split; intros dir w.
  - rewrite loadWatchers_run. split; [eauto|].
    intros H. by rewrite (holds_not_stored _ _ H).
  - rewrite loadListeners_run. split; [eauto|].
    intros H. by rewrite (holds_not_stored _ _ H).
Qed.

Lemma C5_load_fails_open_witness :
  (WatcherStore.loadWatchers Sample.state_dir (Sample.blank Sample.distinct_draws)
   = (Returned [], Sample.blank Sample.distinct_draws) /\
   WatcherStore.loadWatchers Sample.state_dir
     (Sample.with_file (WatcherStore.resolveWatchersPath Sample.state_dir)
        (Malformed "not json"))
   = (Returned [],
      Sample.with_file (WatcherStore.resolveWatchersPath Sample.state_dir)
        (Malformed "not json")) /\
   WatcherStore.loadWatchers Sample.state_dir
     (Sample.with_file (WatcherStore.resolveWatchersPath Sample.state_dir)
        (Wellformed (JObject ["foo"%string])))
   = (Returned [],
      Sample.with_file (WatcherStore.resolveWatchersPath Sample.state_dir)
        (Wellformed (JObject ["foo"%string])))) /\
  (ListenerStore.loadListeners Sample.state_dir (Sample.blank Sample.distinct_draws)
   = (Returned [], Sample.blank Sample.distinct_draws) /\
   ListenerStore.loadListeners Sample.state_dir
     (Sample.with_file (ListenerStore.resolveListenersPath Sample.state_dir)
        (Malformed "not json"))
   = (Returned [],
      Sample.with_file (ListenerStore.resolveListenersPath Sample.state_dir)
        (Malformed "not json")) /\
   ListenerStore.loadListeners Sample.state_dir
     (Sample.with_file (ListenerStore.resolveListenersPath Sample.state_dir)
        (Wellformed (JObject ["foo"%string])))
   = (Returned [],
      Sample.with_file (ListenerStore.resolveListenersPath Sample.state_dir)
        (Wellformed (JObject ["foo"%string])))).
Proof.
  destruct C5_load_fails_open as [Hw Hl].
  split; (split; [|split]).
  - apply Hw. left. vm_compute. reflexivity.
  - apply Hw. right. left. exists "not json"%string. vm_compute. reflexivity.
  - apply Hw. right. right. exists (JObject ["foo"%string]).
    split; vm_compute; reflexivity.
  - apply Hl. left. vm_compute. reflexivity.
  - apply Hl. right. left. exists "not json"%string. vm_compute. reflexivity.
  - apply Hl. right. right. exists (JObject ["foo"%string]).
    split; vm_compute; reflexivity.
Defined.

(** ** Identifiers and timestamps *)





(** ** Adding a rule (C8) *)

Lemma addWatcher_run (dir : string) (input : WatcherStore.WatcherInput)
    (w : World WatcherStore.Watcher) :
  let path := WatcherStore.resolveWatchersPath dir in
  let watcher :=
    {| WatcherStore.id := slice0 8 (UUID_toString (entropy w (drawn w)));
       WatcherStore.entityId := WatcherStore.in_entityId input;
       WatcherStore.fromState := WatcherStore.in_fromState input;
       WatcherStore.toState := WatcherStore.in_toState input;
       WatcherStore.message := WatcherStore.in_message input;
       WatcherStore.oneShot := WatcherStore.in_oneShot input;
       WatcherStore.createdAt := toISOString (now w) |} in
  accepts 2 w ->
  WatcherStore.addWatcher dir input w =
  (Returned watcher, overwritten path (holds path w ++ [watcher]) (drawn_once w)).
Proof.
  intros path watcher Hdisk. unfold WatcherStore.addWatcher, mbind.
  rewrite loadWatchers_run. unfold randomUUID, new_Date. cbv beta iota zeta.
  change (mkWorld (files w) (journal w) (entropy w) (S (drawn w)) (now w)
            (disk w) (fs_calls w)) with (drawn_once w).
  rewrite saveWatchers_run by exact Hdisk. reflexivity.
Qed.

Lemma addListener_run (dir : string) (input : ListenerStore.ListenerInput)
    (w : World ListenerStore.Listener) :
  let path := ListenerStore.resolveListenersPath dir in
  let listener :=
    {| ListenerStore.id := slice0 8 (UUID_toString (entropy w (drawn w)));
       ListenerStore.entityId := ListenerStore.in_entityId input;
       ListenerStore.fromState := ListenerStore.in_fromState input;
       ListenerStore.toState := ListenerStore.in_toState input;
       ListenerStore.message := ListenerStore.in_message input;
       ListenerStore.oneShot := ListenerStore.in_oneShot input;
       ListenerStore.createdAt := toISOString (now w) |} in
  accepts 2 w ->
  ListenerStore.addListener dir input w =
  (Returned listener, overwritten path (holds path w ++ [listener]) (drawn_once w)).
Proof.
  intros path listener Hdisk. unfold ListenerStore.addListener, mbind.
  rewrite loadListeners_run. unfold randomUUID, new_Date. cbv beta iota zeta.
  change (mkWorld (files w) (journal w) (entropy w) (S (drawn w)) (now w)
            (disk w) (fs_calls w)) with (drawn_once w).
  rewrite saveListeners_run by exact Hdisk. reflexivity.
Qed.

Lemma addWatcher_refused (dir : string) (input : WatcherStore.WatcherInput)
    (w : World WatcherStore.Watcher) (e : string) :
  let path := WatcherStore.resolveWatchersPath dir in
  let watcher :=
    {| WatcherStore.id := slice0 8 (UUID_toString (entropy w (drawn w)));
       WatcherStore.entityId := WatcherStore.in_entityId input;
       WatcherStore.fromState := WatcherStore.in_fromState input;
       WatcherStore.toState := WatcherStore.in_toState input;
       WatcherStore.message := WatcherStore.in_message input;
       WatcherStore.oneShot := WatcherStore.in_oneShot input;
       WatcherStore.createdAt := toISOString (now w) |} in
  save_error w = Some e ->
  exists w',
    WatcherStore.addWatcher dir input w = (Thrown e, w') /\
    (holds path w' = holds path w \/ holds path w' = [] \/
     holds path w' = holds path w ++ [watcher]) /\
    (forall p, p <> path -> files w' !! p = files w !! p).
Proof.
  intros path watcher He. unfold WatcherStore.addWatcher, mbind.
  rewrite loadWatchers_run. unfold randomUUID, new_Date. cbv beta iota zeta.
  change (mkWorld (files w) (journal w) (entropy w) (S (drawn w)) (now w)
            (disk w) (fs_calls w)) with (drawn_once w).
  match goal with
  | |- context [WatcherStore.saveWatchers dir ?items ?w0] =>
      destruct (saveWatchers_refused dir items w0 e He)
        as (w' & Hrun & _ & Hfile & Hother & _)
  end.
  rewrite Hrun. exists w'. split; [reflexivity|].
  split; [|exact Hother]. apply holds_after_refusal in Hfile. exact Hfile.
Qed.

Lemma addListener_refused (dir : string) (input : ListenerStore.ListenerInput)
    (w : World ListenerStore.Listener) (e : string) :
  let path := ListenerStore.resolveListenersPath dir in
  let listener :=
    {| ListenerStore.id := slice0 8 (UUID_toString (entropy w (drawn w)));
       ListenerStore.entityId := ListenerStore.in_entityId input;
       ListenerStore.fromState := ListenerStore.in_fromState input;
       ListenerStore.toState := ListenerStore.in_toState input;
       ListenerStore.message := ListenerStore.in_message input;
       ListenerStore.oneShot := ListenerStore.in_oneShot input;
       ListenerStore.createdAt := toISOString (now w) |} in
  save_error w = Some e ->
  exists w',
    ListenerStore.addListener dir input w = (Thrown e, w') /\
    (holds path w' = holds path w \/ holds path w' = [] \/
     holds path w' = holds path w ++ [listener]) /\
    (forall p, p <> path -> files w' !! p = files w !! p).
Proof.
  intros path listener He. unfold ListenerStore.addListener, mbind.
  rewrite loadListeners_run. unfold randomUUID, new_Date. cbv beta iota zeta.
  change (mkWorld (files w) (journal w) (entropy w) (S (drawn w)) (now w)
            (disk w) (fs_calls w)) with (drawn_once w).
  match goal with
  | |- context [ListenerStore.saveListeners dir ?items ?w0] =>
      destruct (saveListeners_refused dir items w0 e He)
        as (w' & Hrun & _ & Hfile & Hother & _)
  end.
  rewrite Hrun. exists w'. split; [reflexivity|].
  split; [|exact Hother]. apply holds_after_refusal in Hfile. exact Hfile.
Qed.



(** ** Delivery loops *)

Lemma only_delivers_for_of {R A} (xs : list A) (body : A -> M R unit) :
  (forall x, only_delivers (body x)) -> only_delivers (for_of xs body).
Proof.
  intros Hbody. induction xs as [|x xs IH]; intros w; simpl.
  - exists []. by rewrite journalled_nil.
  - unfold mbind. destruct (Hbody x w) as (d1 & -> & Hd1).
    destruct (IH (journalled d1 w)) as (d2 & -> & Hd2).
    exists (d1 ++ d2). rewrite journalled_app. split; [done|].
    by apply Forall_app.
Qed.

Lemma only_delivers_enqueue (info : string)
    (cfg : WatcherService.WatcherServiceConfig) (text key : string)
    (failure : string -> string) :
  only_delivers (R := WatcherStore.Watcher)
    (logger_info info ;;
     try_catch (WatcherService.call_enqueueSystemEvent cfg text key)
               (fun err => logger_error (failure err))).
Proof.
  intros w. unfold mbind, try_catch, logger_info, logger_error,
    WatcherService.call_enqueueSystemEvent, mbind, lift.
  rewrite !emit_run.
  destruct (WatcherService.enqueueSystemEvent cfg text key) as [[]|err].
  - exists [Log INFO info; EnqueueSystemEvent text key].
    rewrite journalled_app. split; [done|]. repeat constructor.
  - rewrite emit_run, !journalled_app.
    eexists. split; [done|]. repeat constructor.
Qed.

Lemma only_delivers_exec (info : string) (spawn : string -> Outcome unit)
    (cmd : string) (timeout : Z) (failure : string -> string) :
  only_delivers (R := ListenerStore.Listener)
    (logger_info info ;;
     try_catch (ListenerService.exec spawn cmd timeout)
               (fun err => logger_error (failure err))).
Proof.
  intros w. unfold mbind, try_catch, logger_info, logger_error,
    ListenerService.exec, mbind, lift.
  rewrite !emit_run.
  destruct (spawn cmd) as [[]|err].
  - exists [Log INFO info; Exec cmd timeout].
    rewrite journalled_app. split; [done|]. repeat constructor.
  - rewrite emit_run, !journalled_app.
    eexists. split; [done|]. repeat constructor.
Qed.


Lemma fired_ids_nonempty (ids : list string) :
  (0 <? size (list_to_set ids : gset string))%nat = negb (Nat.eqb (length ids) 0).
Proof.
  destruct ids as [|x ids]; [reflexivity|].
  simpl. apply Nat.ltb_lt.
  assert (size (list_to_set (x :: ids) : gset string) <> 0%nat) as Hsize.
  { apply size_non_empty_iff. set_solver. }
  simpl in Hsize. lia.
Qed.

(** ** The event handler, case by case *)

Lemma matched_watchers_changed (ev : HAStateChangedEvent)
    (loaded : list WatcherStore.Watcher) :
  matched_watchers ev loaded <> [] ->
  exists so sn,
    old_state (data ev) = Some so /\ new_state (data ev) = Some sn /\
    String.eqb (state so) (state sn) = false.
Proof.
  unfold matched_watchers, transition.
  destruct (old_state (data ev)) as [so|], (new_state (data ev)) as [sn|];
    try congruence.
  intros Hne. exists so, sn. split; [done|]. split; [done|].
  destruct (List.filter _ loaded) as [|r rest] eqn:Hf; [congruence|].
  assert (In r (List.filter
    (fun r => WatcherStore.matchesWatcher r (entity_id (data ev)) (state so) (state sn))
    loaded)) as Hin by (rewrite Hf; left; reflexivity).
  apply filter_In in Hin as [_ Hm]. apply matchesWatcher_iff in Hm as (_ & Hon & _).
  by apply String.eqb_neq.
Qed.

Lemma matched_listeners_changed (ev : HAStateChangedEvent)
    (loaded : list ListenerStore.Listener) :
  matched_listeners ev loaded <> [] ->
  exists so sn,
    old_state (data ev) = Some so /\ new_state (data ev) = Some sn /\
    String.eqb (state so) (state sn) = false.
Proof.
  unfold matched_listeners, transition.
  destruct (old_state (data ev)) as [so|], (new_state (data ev)) as [sn|];
    try congruence.
  intros Hne. exists so, sn. split; [done|]. split; [done|].
  destruct (List.filter _ loaded) as [|r rest] eqn:Hf; [congruence|].
  assert (In r (List.filter
    (fun r => ListenerStore.matchesListener r (entity_id (data ev)) (state so) (state sn))
    loaded)) as Hin by (rewrite Hf; left; reflexivity).
  apply filter_In in Hin as [_ Hm]. apply matchesListener_iff in Hm as (_ & Hon & _).
  by apply String.eqb_neq.
Qed.

Lemma length_eqb_0 {A} (l : list A) : (length l =? 0)%nat = true <-> l = [].
Proof. destruct l; simpl; split; congruence. Qed.

Lemma watcher_handler_idle (this : WatcherService.HAWatcherService)
    (ev : HAStateChangedEvent) (w : World WatcherStore.Watcher) :
  matched_watchers ev
    (holds (WatcherStore.resolveWatchersPath
              (WatcherService.stateDir (WatcherService.config this))) w) = [] ->
  WatcherService.handleStateChanged this ev w = (Returned tt, w).
Proof.
  unfold matched_watchers, transition, WatcherService.handleStateChanged.
  destruct (old_state (data ev)) as [so|], (new_state (data ev)) as [sn|];
    try reflexivity.
  intros Hnone. destruct (String.eqb (state so) (state sn)); [reflexivity|].
  unfold mbind. rewrite loadWatchers_run. cbv beta iota.
  rewrite Hnone. reflexivity.
Qed.

Lemma listener_handler_idle (spawn : string -> Outcome unit)
    (this : ListenerService.HAListenerService)
    (ev : HAStateChangedEvent) (w : World ListenerStore.Listener) :
  matched_listeners ev
    (holds (ListenerStore.resolveListenersPath
              (ListenerService.stateDir (ListenerService.config this))) w) = [] ->
  ListenerService.handleStateChanged spawn this ev w = (Returned tt, w).
Proof.
  unfold matched_listeners, transition, ListenerService.handleStateChanged.
  destruct (old_state (data ev)) as [so|], (new_state (data ev)) as [sn|];
    try reflexivity.
  intros Hnone. destruct (String.eqb (state so) (state sn)); [reflexivity|].
  unfold mbind. rewrite loadListeners_run. cbv beta iota.
  rewrite Hnone. reflexivity.
Qed.

Lemma watcher_handler_no_session (this : WatcherService.HAWatcherService)
    (ev : HAStateChangedEvent) (w : World WatcherStore.Watcher) :
  matched_watchers ev
    (holds (WatcherStore.resolveWatchersPath
              (WatcherService.stateDir (WatcherService.config this))) w) <> [] ->
  truthy (WatcherService.resolveSessionKey (WatcherService.config this) tt) = false ->
  WatcherService.handleStateChanged this ev w =
  (Returned tt,
   journalled
     [Log WARN ("[ha-watcher] watcher matched for " +:+ entity_id (data ev) +:+
                " but no sessionKey available")] w).
Proof.
  intros Hsome Hkey.
  destruct (matched_watchers_changed _ _ Hsome) as (so & sn & Ho & Hn & Hneq).
  revert Hsome.
  unfold matched_watchers, transition, WatcherService.handleStateChanged.
  rewrite Ho, Hn, Hneq. intros Hsome.
  unfold mbind. rewrite loadWatchers_run. cbv beta iota.
  destruct (length _ =? 0)%nat eqn:Hlen;
    [apply length_eqb_0 in Hlen; contradiction|].
  rewrite Hkey. reflexivity.
Qed.

Lemma watcher_handler_fires (this : WatcherService.HAWatcherService)
    (ev : HAStateChangedEvent) (w : World WatcherStore.Watcher) :
  let dir := WatcherService.stateDir (WatcherService.config this) in
  let path := WatcherStore.resolveWatchersPath dir in
  let matched := matched_watchers ev (holds path w) in
  let fired : gset string :=
    list_to_set (map WatcherStore.id (List.filter WatcherStore.oneShot matched)) in
  let remaining :=
    List.filter (fun r => negb (bool_decide (WatcherStore.id r ∈ fired))) (holds path w) in
  matched <> [] ->
  truthy (WatcherService.resolveSessionKey (WatcherService.config this) tt) = true ->
  exists d,
    Forall is_sink_effect d /\
    WatcherService.handleStateChanged this ev w =
    if negb (length (List.filter WatcherStore.oneShot matched) =? 0)%nat
    then (WatcherStore.saveWatchers dir remaining ;;
          logger_info ("[ha-watcher] removed " +:+ pretty (size fired) +:+
                       " one-shot watcher(s)")) (journalled d w)
    else (Returned tt, journalled d w).
Proof.
  intros dir path matched fired remaining Hsome Hkey.
  destruct (matched_watchers_changed _ _ Hsome) as (so & sn & Ho & Hn & Hneq).
  subst remaining fired matched path dir. revert Hsome.
  unfold matched_watchers, transition, WatcherService.handleStateChanged.
  rewrite Ho, Hn, Hneq. intros Hsome.
  unfold mbind at 1. rewrite loadWatchers_run. cbv beta iota.
  destruct (length _ =? 0)%nat eqn:Hlen;
    [apply length_eqb_0 in Hlen; contradiction|].
  rewrite Hkey. cbv beta iota zeta. unfold negb at 1.
  unfold mbind at 1.
  match goal with
  | |- context [for_of ?xs ?body w] =>
      destruct (only_delivers_for_of (R := WatcherStore.Watcher) xs body) with (w := w)
        as (d & Hrun & Hd)
  end.
  { intros r. apply only_delivers_enqueue. }
  rewrite Hrun. exists d. split; [exact Hd|].
  rewrite fired_ids_nonempty, length_map.
  destruct (negb _); reflexivity.
Qed.

Lemma listener_handler_fires (spawn : string -> Outcome unit)
    (this : ListenerService.HAListenerService)
    (ev : HAStateChangedEvent) (w : World ListenerStore.Listener) :
  let dir := ListenerService.stateDir (ListenerService.config this) in
  let path := ListenerStore.resolveListenersPath dir in
  let matched := matched_listeners ev (holds path w) in
  let fired : gset string :=
    list_to_set (map ListenerStore.id (List.filter ListenerStore.oneShot matched)) in
  let remaining :=
    List.filter (fun r => negb (bool_decide (ListenerStore.id r ∈ fired))) (holds path w) in
  matched <> [] ->
  exists d,
    Forall is_sink_effect d /\
    ListenerService.handleStateChanged spawn this ev w =
    if negb (length (List.filter ListenerStore.oneShot matched) =? 0)%nat
    then (ListenerStore.saveListeners dir remaining ;;
          logger_info ("[ha-listener] removed " +:+ pretty (size fired) +:+
                       " one-shot listener(s)")) (journalled d w)
    else (Returned tt, journalled d w).
Proof.
  intros dir path matched fired remaining Hsome.
  destruct (matched_listeners_changed _ _ Hsome) as (so & sn & Ho & Hn & Hneq).
  subst remaining fired matched path dir. revert Hsome.
  unfold matched_listeners, transition, ListenerService.handleStateChanged.
  rewrite Ho, Hn, Hneq. intros Hsome.
  unfold mbind at 1. rewrite loadListeners_run. cbv beta iota.
  destruct (length _ =? 0)%nat eqn:Hlen;
    [apply length_eqb_0 in Hlen; contradiction|].
  cbv beta iota zeta. unfold mbind at 1.
  match goal with
  | |- context [for_of ?xs ?body w] =>
      destruct (only_delivers_for_of (R := ListenerStore.Listener) xs body) with (w := w)
        as (d & Hrun & Hd)
  end.
  { intros r. apply only_delivers_exec. }
  rewrite Hrun. exists d. split; [exact Hd|].
  rewrite fired_ids_nonempty, length_map.
  destruct (negb _); reflexivity.
Qed.

(** The retirement step: a save, then one log line when the save resolved. *)
Lemma retirement_completes {R} (save : M R unit) (line : string)
    (path : string) (items : list R) (w : World R) :
  save w = (Returned tt, overwritten path items w) ->
  (save ;; logger_info line) w
  = (Returned tt, journalled [Log INFO line] (overwritten path items w)).
Proof. intros H. unfold mbind. by rewrite H. Qed.

Lemma retirement_refused {R A} (save : M R unit) (k : M R A)
    (e : string) (w w' : World R) :
  save w = (Thrown e, w') -> (save ;; k) w = (Thrown e, w').
Proof. intros H. unfold mbind. by rewrite H. Qed.

Lemma removal_completes {R} (save : M R unit) (w w' : World R) :
  save w = (Returned tt, w') -> (save ;; mret true) w = (Returned true, w').
Proof. intros H. unfold mbind. by rewrite H. Qed.

(** ** Retirement by id *)





Lemma file_writes_app (a b : list Effect) :
  file_writes (a ++ b) = file_writes a ++ file_writes b.
Proof. unfold file_writes. apply omap_app. Qed.

Lemma deliveries_app (a b : list Effect) :
  deliveries (a ++ b) = deliveries a ++ deliveries b.
Proof. unfold deliveries. apply omap_app. Qed.

Lemma scheduled_delays_app (a b : list Effect) :
  scheduled_delays (a ++ b) = scheduled_delays a ++ scheduled_delays b.
Proof. unfold scheduled_delays. apply omap_app. Qed.

Lemma connection_attempts_app (a b : list Effect) :
  connection_attempts (a ++ b) = connection_attempts a ++ connection_attempts b.
Proof. unfold connection_attempts. apply omap_app. Qed.

(** ** Events that fire nothing (C6, C10) *)

Lemma filter_nothing {A} (p : A -> bool) (l : list A) :
  Forall (fun r => p r = false) l -> List.filter p l = [].
Proof.
  induction 1 as [|x l Hx _ IH]; simpl; [done|]. by rewrite Hx.
Qed.

Lemma no_transition_no_watchers (ev : HAStateChangedEvent)
    (loaded : list WatcherStore.Watcher) :
  old_state (data ev) = None \/
  new_state (data ev) = None \/
  (exists so sn, old_state (data ev) = Some so /\ new_state (data ev) = Some sn /\
                 state so = state sn) \/
  (exists so sn, old_state (data ev) = Some so /\ new_state (data ev) = Some sn /\
                 Forall (fun r => WatcherStore.matchesWatcher r (entity_id (data ev))
                                    (state so) (state sn) = false) loaded) ->
  matched_watchers ev loaded = [].
Proof.
  unfold matched_watchers, transition.
  intros [->|[->|[(so & sn & -> & -> & Heq)|(so & sn & -> & -> & Hall)]]].
  - reflexivity.
  - by destruct (old_state (data ev)).
  - apply filter_nothing, Forall_forall. intros r _.
    destruct (WatcherStore.matchesWatcher r _ _ _) eqn:Hm; [|done].
    apply matchesWatcher_iff in Hm as (_ & Hne & _). contradiction.
  - by apply filter_nothing.
Qed.

Lemma no_transition_no_listeners (ev : HAStateChangedEvent)
    (loaded : list ListenerStore.Listener) :
  old_state (data ev) = None \/
  new_state (data ev) = None \/
  (exists so sn, old_state (data ev) = Some so /\ new_state (data ev) = Some sn /\
                 state so = state sn) \/
  (exists so sn, old_state (data ev) = Some so /\ new_state (data ev) = Some sn /\
                 Forall (fun r => ListenerStore.matchesListener r (entity_id (data ev))
                                    (state so) (state sn) = false) loaded) ->
  matched_listeners ev loaded = [].
Proof.
  unfold matched_listeners, transition.
  intros [->|[->|[(so & sn & -> & -> & Heq)|(so & sn & -> & -> & Hall)]]].
  - reflexivity.
  - by destruct (old_state (data ev)).
  - apply filter_nothing, Forall_forall. intros r _.
    destruct (ListenerStore.matchesListener r _ _ _) eqn:Hm; [|done].
    apply matchesListener_iff in Hm as (_ & Hne & _). contradiction.
  - by apply filter_nothing.
Qed.

(** C6: for every state-change event whose prior snapshot is absent, or whose
    new snapshot is absent, or whose prior and new state strings are equal, or
    that no stored rule matches, the handler of either service returns with
    the world as it was: no file is written, nothing is delivered, nothing is
    logged. *)
Theorem C6_ignored_event_changes_nothing :
  (forall (this : WatcherService.HAWatcherService) (ev : HAStateChangedEvent)
          (w : World WatcherStore.Watcher),
      old_state (data ev) = None \/
      new_state (data ev) = None \/
      (exists so sn, old_state (data ev) = Some so /\ new_state (data ev) = Some sn /\
                     state so = state sn) \/
      (exists so sn, old_state (data ev) = Some so /\ new_state (data ev) = Some sn /\
                     Forall (fun r => WatcherStore.matchesWatcher r (entity_id (data ev))
                                        (state so) (state sn) = false)
                            (holds (WatcherStore.resolveWatchersPath
                                      (WatcherService.stateDir (WatcherService.config this)))
                                   w)) ->
      WatcherService.handleStateChanged this ev w = (Returned tt, w)) /\
  (forall (spawn : string -> Outcome unit)
          (this : ListenerService.HAListenerService) (ev : HAStateChangedEvent)
          (w : World ListenerStore.Listener),
      old_state (data ev) = None \/
      new_state (data ev) = None \/
      (exists so sn, old_state (data ev) = Some so /\ new_state (data ev) = Some sn /\
                     state so = state sn) \/
      (exists so sn, old_state (data ev) = Some so /\ new_state (data ev) = Some sn /\
                     Forall (fun r => ListenerStore.matchesListener r (entity_id (data ev))
                                        (state so) (state sn) = false)
                            (holds (ListenerStore.resolveListenersPath
                                      (ListenerService.stateDir (ListenerService.config this)))
                                   w)) ->
      ListenerService.handleStateChanged spawn this ev w = (Returned tt, w)).
Proof.
  split.
  - intros this ev w H. apply watcher_handler_idle.
    by apply no_transition_no_watchers.
  - intros spawn this ev w H. apply listener_handler_idle.
    by apply no_transition_no_listeners.
Qed.

(** C10: in the session-injection variant, when the event matches at least
    one stored rule and [resolveSessionKey] returns no key, the handler
    returns after logging one warning: nothing is delivered, no file is
    written and the stored rule set, matched one-shot rules included, is
    unchanged. *)
Theorem C10_no_session_key_retires_nothing :
  forall (this : WatcherService.HAWatcherService) (ev : HAStateChangedEvent)
         (w : World WatcherStore.Watcher),
    let path := WatcherStore.resolveWatchersPath
                  (WatcherService.stateDir (WatcherService.config this)) in
    matched_watchers ev (holds path w) <> [] ->
    WatcherService.resolveSessionKey (WatcherService.config this) tt = None ->
    exists (warning : string) (w' : World WatcherStore.Watcher),
      WatcherService.handleStateChanged this ev w = (Returned tt, w') /\
      journal w' = journal w ++ [Log WARN warning] /\
      files w' = files w /\
      holds path w' = holds path w /\
      deliveries (journal w') = deliveries (journal w) /\
      file_writes (journal w') = file_writes (journal w).
Proof.
  intros this ev w path Hsome Hkey.
  eexists _, _. split.
  - apply watcher_handler_no_session; [exact Hsome|]. by rewrite Hkey.
  - simpl. rewrite deliveries_app, file_writes_app. simpl.
    by rewrite !app_nil_r.
Qed.

Lemma C6_ignored_event_changes_nothing_witness :
  (let w := Sample.watcher_world [Sample.bedroom_on_once; Sample.bedroom_always] in
   let this := Sample.watcher_service (Some "main"%string) in
   WatcherService.handleStateChanged this
     (Sample.change "light.bedroom" None (Some "on"%string)) w = (Returned tt, w) /\
   WatcherService.handleStateChanged this
     (Sample.change "light.bedroom" (Some "on"%string) None) w = (Returned tt, w) /\
   WatcherService.handleStateChanged this
     (Sample.change "light.bedroom" (Some "on"%string) (Some "on"%string)) w
   = (Returned tt, w) /\
   WatcherService.handleStateChanged this
     (Sample.change "light.kitchen" (Some "off"%string) (Some "on"%string)) w
   = (Returned tt, w)) /\
  (let w := Sample.listener_world
              [Watcher_as_Listener Sample.bedroom_on_once;
               Watcher_as_Listener Sample.bedroom_always] in
   let this := Sample.listener_service in
   ListenerService.handleStateChanged Sample.spawn_ok this
     (Sample.change "light.bedroom" None (Some "on"%string)) w = (Returned tt, w) /\
   ListenerService.handleStateChanged Sample.spawn_ok this
     (Sample.change "light.bedroom" (Some "on"%string) None) w = (Returned tt, w) /\
   ListenerService.handleStateChanged Sample.spawn_ok this
     (Sample.change "light.bedroom" (Some "on"%string) (Some "on"%string)) w
   = (Returned tt, w) /\
   ListenerService.handleStateChanged Sample.spawn_ok this
     (Sample.change "light.kitchen" (Some "off"%string) (Some "on"%string)) w
   = (Returned tt, w)).
Proof.
  destruct C6_ignored_event_changes_nothing as [Hw Hl].
  split; cbv zeta; (split; [|split; [|split]]).
  - apply Hw. left. reflexivity.
  - apply Hw. right. left. reflexivity.
  - apply Hw. right. right. left.
    exists (Sample.snapshot "on"), (Sample.snapshot "on"). by repeat split.
  - apply Hw. right. right. right.
    exists (Sample.snapshot "off"), (Sample.snapshot "on").
    split; [reflexivity|]. split; [reflexivity|].
    vm_compute. repeat constructor.
  - apply Hl. left. reflexivity.
  - apply Hl. right. left. reflexivity.
  - apply Hl. right. right. left.
    exists (Sample.snapshot "on"), (Sample.snapshot "on"). by repeat split.
  - apply Hl. right. right. right.
    exists (Sample.snapshot "off"), (Sample.snapshot "on").
    split; [reflexivity|]. split; [reflexivity|].
    vm_compute. repeat constructor.
Defined.

Lemma C10_no_session_key_retires_nothing_witness :
  let w := Sample.watcher_world [Sample.bedroom_on_once; Sample.bedroom_always] in
  let path := WatcherStore.resolveWatchersPath Sample.state_dir in
  exists (warning : string) (w' : World WatcherStore.Watcher),
    WatcherService.handleStateChanged (Sample.watcher_service None) Sample.turned_on w
    = (Returned tt, w') /\
    journal w' = journal w ++ [Log WARN warning] /\
    files w' = files w /\
    holds path w' = holds path w /\
    deliveries (journal w') = deliveries (journal w) /\
    file_writes (journal w') = file_writes (journal w).
Proof.
  apply (C10_no_session_key_retires_nothing
           (Sample.watcher_service None) Sample.turned_on
           (Sample.watcher_world [Sample.bedroom_on_once; Sample.bedroom_always])).
  - vm_compute. discriminate.
  - reflexivity.
Defined.

(** ** One-shot retirement (C2) *)






(** Retirement goes by id: a rule that did not match but carries the id of a
    matched one-shot rule is dropped with it. *)
Lemma retirement_drops_namesake :
  let w := Sample.listener_world
             [Watcher_as_Listener Sample.bedroom_on_once;
              Watcher_as_Listener Sample.kitchen_namesake;
              Watcher_as_Listener Sample.bedroom_always] in
  let path := ListenerStore.resolveListenersPath Sample.state_dir in
  let w' := snd (ListenerService.handleStateChanged Sample.spawn_ok
                   Sample.listener_service Sample.turned_on w) in
  retire_listeners Sample.turned_on (holds path w)
  = [Watcher_as_Listener Sample.kitchen_namesake;
     Watcher_as_Listener Sample.bedroom_always] /\
  holds path w' = [Watcher_as_Listener Sample.bedroom_always].
Proof. cbv zeta. split; vm_compute; reflexivity. Qed.

(** A match by recurring rules only leaves the file alone. *)
Lemma recurring_match_writes_nothing :
  let w := Sample.listener_world [Watcher_as_Listener Sample.bedroom_always] in
  let w' := snd (ListenerService.handleStateChanged Sample.spawn_ok
                   Sample.listener_service Sample.turned_on w) in
  deliveries (journal w') <> [] /\ file_writes (journal w') = [] /\ files w' = files w.
Proof. cbv zeta. repeat apply conj; vm_compute; [discriminate|reflexivity..]. Qed.

(** ** Identifiers in reachable stores (C7) *)

Lemma removeWatcher_run (dir target : string) (w : World WatcherStore.Watcher) :
  let path := WatcherStore.resolveWatchersPath dir in
  WatcherStore.removeWatcher dir target w =
  match findIndex (fun r => String.eqb (WatcherStore.id r) target) (holds path w) with
  | None => (Returned false, w)
  | Some idx => (WatcherStore.saveWatchers dir (splice1 idx (holds path w)) ;; mret true) w
  end.
Proof.
  intros path. unfold WatcherStore.removeWatcher. unfold mbind at 1.
  rewrite loadWatchers_run. cbv beta iota. fold path.
  destruct (findIndex _ _); reflexivity.
Qed.

Lemma removeListener_run (dir target : string) (w : World ListenerStore.Listener) :
  let path := ListenerStore.resolveListenersPath dir in
  ListenerStore.removeListener dir target w =
  match findIndex (fun r => String.eqb (ListenerStore.id r) target) (holds path w) with
  | None => (Returned false, w)
  | Some idx => (ListenerStore.saveListeners dir (splice1 idx (holds path w)) ;; mret true) w
  end.
Proof.
  intros path. unfold ListenerStore.removeListener. unfold mbind at 1.
  rewrite loadListeners_run. cbv beta iota. fold path.
  destruct (findIndex _ _); reflexivity.
Qed.

Section DistinctKeys.
Context {A : Type} (key : A -> string).

Lemma distinct_keys_splice1 (idx : nat) (l : list A) :
  NoDup (map key l) -> NoDup (map key (splice1 idx l)).
Proof.
  revert idx. induction l as [|x l IH]; intros idx Hnd; [by destruct idx|].
  simpl in Hnd. apply NoDup_cons in Hnd as [Hx Hnd].
  destruct idx as [|idx]; simpl; [done|].
  apply NoDup_cons. split; [|by apply IH].
  intros Hin. apply Hx. clear -Hin.
  revert idx Hin. induction l as [|y l IHl]; intros idx Hin; [by destruct idx|].
  destruct idx as [|idx]; simpl in *.
  - by apply list_elem_of_further.
  - apply elem_of_cons in Hin as [->|Hin]; [by left|].
    apply list_elem_of_further. by eapply IHl.
Qed.

Lemma distinct_keys_filter (p : A -> bool) (l : list A) :
  NoDup (map key l) -> NoDup (map key (List.filter p l)).
Proof.
  induction l as [|x l IH]; simpl; [done|].
  intros Hnd. apply NoDup_cons in Hnd as [Hx Hnd].
  destruct (p x); simpl; [|by apply IH].
  apply NoDup_cons. split; [|by apply IH].
  intros Hin. apply Hx.
  apply list_elem_of_In, in_map_iff in Hin as (y & Hk & Hy).
  apply filter_In in Hy as [Hy _].
  apply list_elem_of_In, in_map_iff. eauto.
Qed.

Lemma distinct_keys_snoc (x : A) (l : list A) :
  NoDup (map key l) -> key x ∉ map key l -> NoDup (map key (l ++ [x])).
Proof.
  intros Hnd Hx. rewrite map_app. apply NoDup_app. split; [done|].
  split; [|apply NoDup_singleton].
  intros k Hk Hk'. simpl in Hk'. apply list_elem_of_singleton in Hk' as ->.
  contradiction.
Qed.
End DistinctKeys.

Lemma quiet_effects (d : list Effect) :
  Forall (fun e => is_sink_effect e \/ is_disk_effect e) d ->
  scheduled_delays d = [] /\ connection_attempts d = [] /\
  sent d = [] /\ sent_ids d = [].
Proof.
  induction 1 as [|e d He _ (H1 & H2 & H3 & H4)]; [done|].
  unfold scheduled_delays, connection_attempts, sent, sent_ids in *.
  destruct e; simpl in *; try done; destruct He as [[]|[]].
Qed.

Lemma sink_effects_are_quiet (d : list Effect) :
  Forall is_sink_effect d ->
  Forall (fun e => is_sink_effect e \/ is_disk_effect e) d.
Proof. intros H. eapply Forall_impl; [exact H|]. simpl. auto. Qed.

(** What the handler can do to the world, whatever the sink and the disk
    answer. *)
Lemma watcher_handler_outcome (this : WatcherService.HAWatcherService)
    (ev : HAStateChangedEvent) (w : World WatcherStore.Watcher) :
  let path := WatcherStore.resolveWatchersPath
                (WatcherService.stateDir (WatcherService.config this)) in
  exists o w' d,
    WatcherService.handleStateChanged this ev w = (o, w') /\
    journal w' = journal w ++ d /\
    Forall (fun e => is_sink_effect e \/ is_disk_effect e) d /\
    (forall p, p <> path -> files w' !! p = files w !! p) /\
    (NoDup (map WatcherStore.id (holds path w)) ->
     NoDup (map WatcherStore.id (holds path w'))).
Proof.
  intros path.
  destruct (matched_watchers ev (holds path w)) as [|r rest] eqn:Hmatched.
  { exists (Returned tt), w, []. rewrite watcher_handler_idle by exact Hmatched.
    by rewrite app_nil_r. }
  assert (matched_watchers ev (holds path w) <> []) as Hsome by congruence.
  destruct (truthy (WatcherService.resolveSessionKey (WatcherService.config this) tt))
    eqn:Hkey.
  - destruct (watcher_handler_fires this ev w Hsome Hkey) as (d & Hd & ->).
    apply sink_effects_are_quiet in Hd.
    destruct (negb _).
    + fold path.
      match goal with
      | |- context [WatcherStore.saveWatchers ?dir ?items] =>
          set (remaining := items);
          assert (NoDup (map WatcherStore.id (holds path w)) ->
                  NoDup (map WatcherStore.id remaining)) as Hkeep
            by apply distinct_keys_filter
      end.
      destruct (save_cases (journalled d w)) as [Hdisk|[e He]].
      * rewrite (retirement_completes _ _ path remaining)
          by (apply saveWatchers_run; exact Hdisk).
        eexists _, _, _. split; [reflexivity|]. simpl. rewrite <- !app_assoc.
        split; [reflexivity|]. split.
        { apply Forall_app. split; [exact Hd|]. repeat constructor; simpl; tauto. }
        split; [intros p Hp; by rewrite lookup_insert_ne|].
        intros Hnd. unfold holds. simpl. rewrite lookup_insert_eq. by apply Hkeep.
      * destruct (saveWatchers_refused
                    (WatcherService.stateDir (WatcherService.config this))
                    remaining (journalled d w) e He)
          as (w' & Hrun & Hj & Hfile & Hother & _).
        rewrite (retirement_refused _ _ e _ w' Hrun).
        apply holds_after_refusal in Hfile. fold path in Hj, Hfile.
        destruct Hj as [Hj|Hj].
        all: eexists _, w', _; split; [reflexivity|].
        all: split; [rewrite Hj; simpl; rewrite <- app_assoc; reflexivity|].
        all: split; [apply Forall_app; split; [exact Hd|];
                     repeat constructor; simpl; tauto|].
        all: split; [exact Hother|].
        all: intros Hnd; destruct Hfile as [->|[->| ->]];
          [exact Hnd | apply NoDup_nil_2 | by apply Hkeep].
    + eexists _, _, d. split; [reflexivity|]. split; [reflexivity|].
      split; [exact Hd|]. split; [done|]. done.
  - rewrite watcher_handler_no_session by done.
    eexists _, _, _. split; [reflexivity|]. split; [reflexivity|].
    split; [repeat constructor; simpl; tauto|]. done.
Qed.

Lemma listener_handler_outcome (spawn : string -> Outcome unit)
    (this : ListenerService.HAListenerService)
    (ev : HAStateChangedEvent) (w : World ListenerStore.Listener) :
  let path := ListenerStore.resolveListenersPath
                (ListenerService.stateDir (ListenerService.config this)) in
  exists o w' d,
    ListenerService.handleStateChanged spawn this ev w = (o, w') /\
    journal w' = journal w ++ d /\
    Forall (fun e => is_sink_effect e \/ is_disk_effect e) d /\
    (forall p, p <> path -> files w' !! p = files w !! p) /\
    (NoDup (map ListenerStore.id (holds path w)) ->
     NoDup (map ListenerStore.id (holds path w'))).
Proof.
  intros path.
  destruct (matched_listeners ev (holds path w)) as [|r rest] eqn:Hmatched.
  { exists (Returned tt), w, []. rewrite listener_handler_idle by exact Hmatched.
    by rewrite app_nil_r. }
  assert (matched_listeners ev (holds path w) <> []) as Hsome by congruence.
  destruct (listener_handler_fires spawn this ev w Hsome) as (d & Hd & ->).
  apply sink_effects_are_quiet in Hd.
  destruct (negb _).
  - fold path.
    match goal with
    | |- context [ListenerStore.saveListeners ?dir ?items] =>
        set (remaining := items);
        assert (NoDup (map ListenerStore.id (holds path w)) ->
                NoDup (map ListenerStore.id remaining)) as Hkeep
          by apply distinct_keys_filter
    end.
    destruct (save_cases (journalled d w)) as [Hdisk|[e He]].
    + rewrite (retirement_completes _ _ path remaining)
        by (apply saveListeners_run; exact Hdisk).
      eexists _, _, _. split; [reflexivity|]. simpl. rewrite <- !app_assoc.
      split; [reflexivity|]. split.
      { apply Forall_app. split; [exact Hd|]. repeat constructor; simpl; tauto. }
      split; [intros p Hp; by rewrite lookup_insert_ne|].
      intros Hnd. unfold holds. simpl. rewrite lookup_insert_eq. by apply Hkeep.
    + destruct (saveListeners_refused
                  (ListenerService.stateDir (ListenerService.config this))
                  remaining (journalled d w) e He)
        as (w' & Hrun & Hj & Hfile & Hother & _).
      rewrite (retirement_refused _ _ e _ w' Hrun).
      apply holds_after_refusal in Hfile. fold path in Hj, Hfile.
      destruct Hj as [Hj|Hj].
      all: eexists _, w', _; split; [reflexivity|].
      all: split; [rewrite Hj; simpl; rewrite <- app_assoc; reflexivity|].
      all: split; [apply Forall_app; split; [exact Hd|];
                   repeat constructor; simpl; tauto|].
      all: split; [exact Hother|].
      all: intros Hnd; destruct Hfile as [->|[->| ->]];
        [exact Hnd | apply NoDup_nil_2 | by apply Hkeep].
  - eexists _, _, d. split; [reflexivity|]. split; [reflexivity|].
    split; [exact Hd|]. split; [done|]. done.
Qed.

Lemma watcher_handler_keeps_ids_distinct (this : WatcherService.HAWatcherService)
    (ev : HAStateChangedEvent) (w : World WatcherStore.Watcher) :
  let path := WatcherStore.resolveWatchersPath
                (WatcherService.stateDir (WatcherService.config this)) in
  NoDup (map WatcherStore.id (holds path w)) ->
  NoDup (map WatcherStore.id
           (holds path (snd (WatcherService.handleStateChanged this ev w)))).
Proof.
  intros path Hnd.
  destruct (watcher_handler_outcome this ev w) as (o & w' & d & -> & _ & _ & _ & Hkeep).
  by apply Hkeep.
Qed.

Lemma listener_handler_keeps_ids_distinct (spawn : string -> Outcome unit)
    (this : ListenerService.HAListenerService)
    (ev : HAStateChangedEvent) (w : World ListenerStore.Listener) :
  let path := ListenerStore.resolveListenersPath
                (ListenerService.stateDir (ListenerService.config this)) in
  NoDup (map ListenerStore.id (holds path w)) ->
  NoDup (map ListenerStore.id
           (holds path (snd (ListenerService.handleStateChanged spawn this ev w)))).
Proof.
  intros path Hnd.
  destruct (listener_handler_outcome spawn this ev w)
    as (o & w' & d & -> & _ & _ & _ & Hkeep).
  by apply Hkeep.
Qed.

Lemma add_keeps_ids_distinct {A R} (key : A -> string) (w w' : World R)
    (x : A) (old new : list A) :
  NoDup (map key old) -> key x ∉ map key old ->
  new = old \/ new = [] \/ new = old ++ [x] ->
  NoDup (map key new).
Proof.
  intros Hnd Hx [->|[->| ->]];
    [exact Hnd | apply NoDup_nil_2 | by apply distinct_keys_snoc].
Qed.

Lemma fresh_watcher_states_distinct (dir : string) (w : World WatcherStore.Watcher) :
  watcher_states (fresh_watcher_draw dir) dir w ->
  NoDup (map WatcherStore.id (holds (WatcherStore.resolveWatchersPath dir) w)).
Proof.
  induction 1 as [w Hnone|w input _ IH Hfresh|w target _ IH|w this ev _ IH Hdir|w t _ IH].
  - unfold holds. rewrite Hnone. apply NoDup_nil_2.
  - destruct (save_cases w) as [Hdisk|[e He]].
    + rewrite addWatcher_run by exact Hdisk. cbn [snd]. rewrite holds_overwritten.
      apply distinct_keys_snoc; [exact IH|exact Hfresh].
    + destruct (addWatcher_refused dir input w e He) as (w' & -> & Hheld & _).
      cbn [snd]. eapply (add_keeps_ids_distinct _ w w'); [exact IH| |exact Hheld].
      exact Hfresh.
  - rewrite removeWatcher_run. cbv zeta.
    destruct (findIndex _ _) as [i|]; [|exact IH].
    destruct (save_cases w) as [Hdisk|[e He]].
    + rewrite (removal_completes _ _ _ (saveWatchers_run dir _ w Hdisk)).
      cbn [snd]. rewrite holds_overwritten. by apply distinct_keys_splice1.
    + destruct (saveWatchers_refused dir
                  (splice1 i (holds (WatcherStore.resolveWatchersPath dir) w)) w e He)
        as (w' & Hrun & _ & Hfile & _).
      rewrite (retirement_refused _ _ e _ w' Hrun). cbn [snd].
      apply holds_after_refusal in Hfile as [->|[->| ->]];
        [exact IH | apply NoDup_nil_2 | by apply distinct_keys_splice1].
  - subst dir. by apply watcher_handler_keeps_ids_distinct.
  - exact IH.
Qed.

Lemma fresh_listener_states_distinct (dir : string) (w : World ListenerStore.Listener) :
  listener_states (fresh_listener_draw dir) dir w ->
  NoDup (map ListenerStore.id (holds (ListenerStore.resolveListenersPath dir) w)).
Proof.
  induction 1 as [w Hnone|w input _ IH Hfresh|w target _ IH
                 |w spawn this ev _ IH Hdir|w t _ IH].
  - unfold holds. rewrite Hnone. apply NoDup_nil_2.
  - destruct (save_cases w) as [Hdisk|[e He]].
    + rewrite addListener_run by exact Hdisk. cbn [snd]. rewrite holds_overwritten.
      apply distinct_keys_snoc; [exact IH|exact Hfresh].
    + destruct (addListener_refused dir input w e He) as (w' & -> & Hheld & _).
      cbn [snd]. eapply (add_keeps_ids_distinct _ w w'); [exact IH| |exact Hheld].
      exact Hfresh.
  - rewrite removeListener_run. cbv zeta.
    destruct (findIndex _ _) as [i|]; [|exact IH].
    destruct (save_cases w) as [Hdisk|[e He]].
    + rewrite (removal_completes _ _ _ (saveListeners_run dir _ w Hdisk)).
      cbn [snd]. rewrite holds_overwritten. by apply distinct_keys_splice1.
    + destruct (saveListeners_refused dir
                  (splice1 i (holds (ListenerStore.resolveListenersPath dir) w)) w e He)
        as (w' & Hrun & _ & Hfile & _).
      rewrite (retirement_refused _ _ e _ w' Hrun). cbn [snd].
      apply holds_after_refusal in Hfile as [->|[->| ->]];
        [exact IH | apply NoDup_nil_2 | by apply distinct_keys_splice1].
  - subst dir. by apply listener_handler_keeps_ids_distinct.
  - exact IH.
Qed.

(** C7 (amended): for every store state producible from the empty store by a
    finite sequence of add, remove and event-driven retirement operations in
    which each add draws an id, the first eight characters of a random UUID,
    that is not yet in the store, the ids of the stored rules are pairwise
    distinct. *)
Theorem C7_ids_distinct_when_draws_are_fresh :
  (forall (dir : string) (w : World WatcherStore.Watcher),
      watcher_states (fresh_watcher_draw dir) dir w ->
      NoDup (map WatcherStore.id (holds (WatcherStore.resolveWatchersPath dir) w))) /\
  (forall (dir : string) (w : World ListenerStore.Listener),
      listener_states (fresh_listener_draw dir) dir w ->
      NoDup (map ListenerStore.id (holds (ListenerStore.resolveListenersPath dir) w))).
Proof.
  split; [apply fresh_watcher_states_distinct | apply fresh_listener_states_distinct].
Qed.

Lemma C7_ids_distinct_when_draws_are_fresh_witness :
  NoDup (map WatcherStore.id
           (holds (WatcherStore.resolveWatchersPath Sample.state_dir)
                  (Sample.added_twice Sample.distinct_draws))).
Proof.
  apply (proj1 C7_ids_distinct_when_draws_are_fresh Sample.state_dir
           (Sample.added_twice Sample.distinct_draws)).
  unfold Sample.added_twice.
  apply watcher_added; [apply watcher_added; [apply watcher_empty|]|].
  - reflexivity.
  - apply (bool_decide_unpack _). vm_compute. exact I.
  - apply (bool_decide_unpack _). vm_compute. exact I.
Defined.

(** C7 as stated fails: [add] never compares the id it draws with the store.
    Two random UUIDs that share their first eight digits give, after two adds
    to an empty store, two rules with the same id. *)
Lemma C7_colliding_draws_counterexample :
  watcher_reachable Sample.state_dir (Sample.added_twice Sample.colliding_draws) /\
  UUID_toString (Sample.colliding_draws 0) = "550e8400-e29b-41d4-a716-446655440000"%string /\
  UUID_toString (Sample.colliding_draws 1) = "550e8400-1c2a-4f0b-9d3e-7a5b6c8d9e0f"%string /\
  map WatcherStore.id
      (holds (WatcherStore.resolveWatchersPath Sample.state_dir)
             (Sample.added_twice Sample.colliding_draws))
  = ["550e8400"%string; "550e8400"%string] /\
  ~ NoDup (map WatcherStore.id
             (holds (WatcherStore.resolveWatchersPath Sample.state_dir)
                    (Sample.added_twice Sample.colliding_draws))).
Proof.
  split; [|split; [|split; [|split]]].
  - unfold watcher_reachable, Sample.added_twice.
    apply watcher_added; [apply watcher_added; [apply watcher_empty|]|]; done.
  - vm_compute. reflexivity.
  - vm_compute. reflexivity.
  - vm_compute. reflexivity.
  - intros Hnd. apply (bool_decide_pack _) in Hnd. vm_compute in Hnd. exact Hnd.
Qed.

(** ** The session: what each callback schedules *)

Section SessionSteps.
(** Any platform constructor. *)
Variable ctor : string -> Outcome WebSocket.

Local Opaque Z.min Z.mul Z.add String.append pretty round_div_1000
  http_to_ws strip_trailing_slash WatcherService.handleStateChanged.

Ltac unfold_session :=
  unfold WatcherService.step, WatcherService.start, WatcherService.stop,
    WatcherService.onopen, WatcherService.onclose, WatcherService.onerror,
    WatcherService.onmessage, WatcherService.reconnect_callback,
    WatcherService.ping_callback, WatcherService.connect,
    WatcherService.scheduleReconnect, WatcherService.clearTimers,
    WatcherService.handleMessage, WatcherService.subscribeEvents,
    WatcherService.startPing, WatcherService.send, WatcherService.parse_frame,
    WatcherService.new_WebSocket, WatcherService.ws_close,
    WatcherService.socket_becomes,
    unawaited, try_catch, mbind, lift, throw, mret, logger_info, logger_error,
    logger_warn, emit;
  simpl.

Ltac split_cases :=
  repeat match goal with
         | |- context [readyState ?s] => is_var s; destruct s as [?]; simpl
         | |- context [match ?x with _ => _ end] =>
             first [is_var x | match x with ctor _ => idtac end];
             destruct x; simpl
         end.

Ltac conclude :=
  eexists _, _, _; split; [reflexivity|]; simpl;
  split; [first [symmetry; apply app_nil_r
                | rewrite <- ?app_assoc; simpl; reflexivity]|];
  unfold step_outcome; simpl;
  split; [reflexivity|];
  split; [intros Hst Hne; simpl in *; subst; try discriminate;
          repeat split; reflexivity|];
  first [left; split; reflexivity | right; repeat split; reflexivity].

(** An [event] message: the handler runs unawaited, so the callback returns
    with the session as it was whatever the handler's outcome; a rejection
    is left to the runtime. *)
Lemma step_event (this : WatcherService.HAWatcherService) (id : Z)
    (ev : HAStateChangedEvent) (w : World WatcherStore.Watcher) :
  exists w' d,
    WatcherService.step ctor this (EvMessage (GoodFrame (event id ev))) w
    = (Returned this, w') /\
    journal w' = journal w ++ d /\
    scheduled_delays d = [] /\ connection_attempts d = [] /\
    sent d = [] /\ sent_ids d = [].
Proof.
  destruct this as [ws msgId rt pt rd st cfg]. unfold_session.
  destruct (String.eqb (event_type ev) "state_changed").
  - match goal with
    | |- context [WatcherService.handleStateChanged ?s ev w] =>
        destruct (watcher_handler_outcome s ev w) as (o & w' & d & -> & Hj & Hd & _)
    end.
    apply quiet_effects in Hd as (H1 & H2 & H3 & H4).
    destruct o as [[]|err]; simpl.
    + by exists w', d.
    + eexists _, (d ++ [UnhandledRejection err]). split; [reflexivity|]. simpl.
      rewrite Hj, <- app_assoc. split; [reflexivity|].
      unfold scheduled_delays, connection_attempts, sent, sent_ids in *.
      rewrite !omap_app, H1, H2, H3, H4. done.
  - eexists _, []. split; [reflexivity|]. by rewrite app_nil_r.
Qed.

Lemma step_plain (this : WatcherService.HAWatcherService) (e : Event)
    (w : World WatcherStore.Watcher) :
  (forall payload, e <> EvMessage payload) ->
  exists this' w' d,
    WatcherService.step ctor this e w = (Returned this', w') /\
    journal w' = journal w ++ d /\ step_outcome this e this' d.
Proof.
  intros Hplain.
  destruct this as [ws msgId rt pt rd st cfg].
  destruct e; try (by destruct (Hplain payload)); clear Hplain.
  all: unfold_session; split_cases; conclude.
Qed.

Lemma step_message (this : WatcherService.HAWatcherService) (payload : Frame)
    (w : World WatcherStore.Watcher) :
  exists this' w' d,
    WatcherService.step ctor this (EvMessage payload) w = (Returned this', w') /\
    journal w' = journal w ++ d /\ step_outcome this (EvMessage payload) this' d.
Proof.
  destruct payload as [text|[version|version|reason|id ok failure|id ev|id]].
  6: {
    destruct (step_event this id ev w) as (w' & d & Hstep & Hj & Hd1 & Hd2 & _).
    exists this, w', d. split; [exact Hstep|]. split; [exact Hj|].
    unfold step_outcome. simpl. rewrite Hd1, Hd2.
    split; [reflexivity|]. split; [by intros -> _|]. by left. }
  all: destruct this as [ws msgId rt pt rd st cfg].
  all: unfold_session.
  5: destruct ok, failure as [[code reason]|]; simpl.
  all: split_cases; conclude.
Qed.

Lemma step_total (this : WatcherService.HAWatcherService) (e : Event)
    (w : World WatcherStore.Watcher) :
  exists this' w' d,
    WatcherService.step ctor this e w = (Returned this', w') /\
    journal w' = journal w ++ d /\ step_outcome this e this' d.
Proof.
  destruct e; try (apply step_plain; discriminate). apply step_message.
Qed.
Ltac precisely :=
  eexists _, _, _; split; [reflexivity|]; simpl;
  split; [rewrite <- ?app_assoc; simpl; reflexivity|];
  repeat split; reflexivity.

Lemma close_schedules_reconnect (this : WatcherService.HAWatcherService)
    (w : World WatcherStore.Watcher) :
  WatcherService.stopped this = false ->
  exists this' w' d,
    WatcherService.step ctor this EvClose w = (Returned this', w') /\
    journal w' = journal w ++ d /\
    scheduled_delays d = [WatcherService.reconnectDelay this] /\
    connection_attempts d = [] /\
    WatcherService.stopped this' = false /\
    WatcherService.config this' = WatcherService.config this /\
    WatcherService.reconnectDelay this' =
    Z.min (WatcherService.reconnectDelay this * 2) 30000.
Proof.
  destruct this as [ws msgId rt pt rd st cfg]. simpl. intros ->.
  unfold_session; split_cases; precisely.
Qed.

Lemma attempt_opens_socket (this : WatcherService.HAWatcherService) (e : Event)
    (w : World WatcherStore.Watcher) (sock : WebSocket) :
  e = EvStart \/ (e = EvReconnectTimer /\ WatcherService.stopped this = false) ->
  ctor (endpoint (WatcherService.config this)) = Returned sock ->
  exists this' w' d,
    WatcherService.step ctor this e w = (Returned this', w') /\
    journal w' = journal w ++ d /\
    scheduled_delays d = [] /\
    connection_attempts d = [endpoint (WatcherService.config this)] /\
    WatcherService.stopped this' = false /\
    WatcherService.config this' = WatcherService.config this /\
    WatcherService.reconnectDelay this' = WatcherService.reconnectDelay this.
Proof.
  destruct this as [ws msgId rt pt rd st cfg]. unfold endpoint. simpl.
  intros [->|[-> ->]] Hctor; unfold_session; rewrite Hctor; simpl; precisely.
Qed.

Lemma attempt_refused_schedules_reconnect (this : WatcherService.HAWatcherService)
    (e : Event) (w : World WatcherStore.Watcher) (err : string) :
  e = EvStart \/ (e = EvReconnectTimer /\ WatcherService.stopped this = false) ->
  ctor (endpoint (WatcherService.config this)) = Thrown err ->
  exists this' w' d,
    WatcherService.step ctor this e w = (Returned this', w') /\
    journal w' = journal w ++ d /\
    scheduled_delays d = [WatcherService.reconnectDelay this] /\
    connection_attempts d = [endpoint (WatcherService.config this)] /\
    WatcherService.stopped this' = false /\
    WatcherService.config this' = WatcherService.config this /\
    WatcherService.reconnectDelay this' =
    Z.min (WatcherService.reconnectDelay this * 2) 30000.
Proof.
  destruct this as [ws msgId rt pt rd st cfg]. unfold endpoint. simpl.
  intros [->|[-> ->]] Hctor; unfold_session; rewrite Hctor; simpl; precisely.
Qed.

Lemma auth_invalid_stops (this : WatcherService.HAWatcherService)
    (reason : string) (w : World WatcherStore.Watcher) :
  exists this' w',
    WatcherService.step ctor this (EvMessage (GoodFrame (auth_invalid reason))) w
    = (Returned this', w') /\
    journal w' =
    journal w ++
    Log ERROR ("[ha-watcher] auth failed: " +:+ reason)
    :: match WatcherService.ws this with Some _ => [WsClose] | None => [] end /\
    WatcherService.stopped this' = true /\
    WatcherService.ws this' =
    match WatcherService.ws this with
    | Some _ => Some {| readyState := CLOSING |}
    | None => None
    end.
Proof.
  destruct this as [ws msgId rt pt rd st cfg].
  unfold_session. destruct ws; simpl.
  - eexists _, _. split; [reflexivity|]. simpl. rewrite <- app_assoc. done.
  - eexists _, _. split; [reflexivity|]. done.
Qed.
Lemma open_resets_backoff (this : WatcherService.HAWatcherService)
    (w : World WatcherStore.Watcher) :
  exists this' w',
    WatcherService.step ctor this EvOpen w = (Returned this', w') /\
    journal w' = journal w ++ [Log INFO "[ha-watcher] WebSocket connected"] /\
    WatcherService.reconnectDelay this' = 1000%Z /\
    WatcherService.stopped this' = WatcherService.stopped this /\
    WatcherService.config this' = WatcherService.config this.
Proof.
  destruct this as [ws msgId rt pt rd st cfg].
  unfold_session. destruct ws; simpl; eexists _, _; (split; [reflexivity|]); done.
Qed.
Lemma step_exact (this : WatcherService.HAWatcherService) (e : Event)
    (w : World WatcherStore.Watcher) :
  exists this' w' d,
    WatcherService.step ctor this e w = (Returned this', w') /\
    journal w' = journal w ++ d /\
    WatcherService.config this' = WatcherService.config this /\
    WatcherService.stopped this' = stopped_after e (WatcherService.stopped this) /\
    scheduled_delays d =
    (if fails (refuses ctor (WatcherService.config this)) (WatcherService.stopped this) e
     then [WatcherService.reconnectDelay this] else []) /\
    WatcherService.reconnectDelay this' =
    (if is_open e then 1000%Z
     else if fails (refuses ctor (WatcherService.config this))
               (WatcherService.stopped this) e
          then Z.min (WatcherService.reconnectDelay this * 2) 30000
          else WatcherService.reconnectDelay this).
Proof.
  destruct e as [| | |[text|[version|version|reason|id ok failure|id ev|id]]| | | |].
  9: {
    destruct (step_event this id ev w) as (w' & d & Hstep & Hj & Hd & _).
    exists this, w', d. split; [exact Hstep|]. split; [exact Hj|].
    simpl. rewrite Hd. done. }
  all: destruct this as [ws msgId rt pt rd st cfg].
  all: unfold refuses, endpoint.
  all: unfold_session.
  8: destruct ok, failure as [[code reason]|]; simpl.
  all: split_cases.
  all: eexists _, _, _; split; [reflexivity|]; simpl.
  all: split; [first [symmetry; apply app_nil_r
                     | rewrite <- ?app_assoc; simpl; reflexivity]|].
  all: repeat split; reflexivity.
Qed.
End SessionSteps.

(** ** Backoff arithmetic *)

Lemma nth_delay_next (k : nat) :
  Z.min (nth_delay (S k) * 2) 30000 = nth_delay (S (S k)).
Proof.
  unfold nth_delay.
  replace (Z.of_nat (S (S k)) - 1)%Z with (Z.succ (Z.of_nat (S k) - 1)) by lia.
  rewrite Z.pow_succ_r by lia.
  assert (0 < 2 ^ (Z.of_nat (S k) - 1))%Z as Hpos by (apply Z.pow_pos_nonneg; lia).
  lia.
Qed.

Lemma nth_delay_first : nth_delay 1 = 1000%Z.
Proof. reflexivity. Qed.

Lemma nth_delay_monotone (k : nat) :
  (nth_delay (S k) <= nth_delay (S (S k)) <= 30000)%Z.
Proof.
  rewrite <- nth_delay_next. unfold nth_delay.
  assert (0 < 2 ^ (Z.of_nat (S k) - 1))%Z as Hpos by (apply Z.pow_pos_nonneg; lia).
  lia.
Qed.

Lemma nth_delay_capped (k : nat) : (6 <= k)%nat -> nth_delay k = 30000%Z.
Proof.
  intros Hk. unfold nth_delay.
  assert (2 ^ 5 <= 2 ^ (Z.of_nat k - 1))%Z as Hpow
    by (apply Z.pow_le_mono_r; lia).
  change (2 ^ 5)%Z with 32%Z in Hpow. lia.
Qed.

(** ** Runs of the session *)

Section SessionRuns.
Variable ctor : string -> Outcome WebSocket.

Lemma run_cons (this : WatcherService.HAWatcherService) (e : Event)
    (rest : list Event) (w : World WatcherStore.Watcher)
    (this' : WatcherService.HAWatcherService) (w' : World WatcherStore.Watcher) :
  WatcherService.step ctor this e w = (Returned this', w') ->
  WatcherService.run ctor this (e :: rest) w = WatcherService.run ctor this' rest w'.
Proof. intros H. simpl. unfold mbind. by rewrite H. Qed.

Lemma run_app (a b : list Event) (this : WatcherService.HAWatcherService)
    (w : World WatcherStore.Watcher)
    (this' : WatcherService.HAWatcherService) (w' : World WatcherStore.Watcher) :
  WatcherService.run ctor this a w = (Returned this', w') ->
  WatcherService.run ctor this (a ++ b) w = WatcherService.run ctor this' b w'.
Proof.
  revert this w. induction a as [|e a IH]; intros this w H; simpl in *.
  - unfold mret in H. by inversion H.
  - unfold mbind in *.
    destruct (WatcherService.step ctor this e w) as [[s|err] w1]; [|discriminate].
    by apply IH.
Qed.

(** Once stopped, a session that is not started again stays stopped,
    schedules no reconnect and opens no socket. *)
Lemma stopped_run_is_inert (events : list Event) :
  forall (this : WatcherService.HAWatcherService) (w : World WatcherStore.Watcher),
    WatcherService.stopped this = true ->
    start_free events = true ->
    exists this' w' d,
      WatcherService.run ctor this events w = (Returned this', w') /\
      journal w' = journal w ++ d /\
      WatcherService.stopped this' = true /\
      scheduled_delays d = [] /\ connection_attempts d = [].
Proof.
  induction events as [|e events IH]; intros this w Hst Hfree.
  - exists this, w, []. by rewrite app_nil_r.
  - simpl in Hfree. apply andb_true_iff in Hfree as [He Hfree].
    apply negb_true_iff in He.
    destruct (step_total ctor this e w) as (s1 & w1 & d1 & Hstep & Hj1 & _ & Hinert & _).
    destruct (Hinert Hst He) as (Hst1 & Hd1 & Ha1).
    destruct (IH s1 w1 Hst1 Hfree) as (s2 & w2 & d2 & Hrun & Hj2 & Hst2 & Hd2 & Ha2).
    exists s2, w2, (d1 ++ d2).
    rewrite (run_cons _ _ _ _ _ _ Hstep), Hrun, Hj2, Hj1, <- app_assoc.
    rewrite scheduled_delays_app, connection_attempts_app, Hd1, Hd2, Ha1, Ha2.
    done.
Qed.

(** Without an open in between, the reconnects a run schedules are the
    consecutive terms of the backoff sequence, one for each failed
    connection attempt. *)
Lemma open_free_run_exact (events : list Event) :
  forall (this : WatcherService.HAWatcherService) (w : World WatcherStore.Watcher)
         (k : nat),
    open_free events = true ->
    WatcherService.reconnectDelay this = nth_delay (S k) ->
    exists this' w' d,
      WatcherService.run ctor this events w = (Returned this', w') /\
      journal w' = journal w ++ d /\
      scheduled_delays d =
      map nth_delay
          (seq (S k) (failed_attempts (refuses ctor (WatcherService.config this))
                        (WatcherService.stopped this) events)).
Proof.
  induction events as [|e events IH]; intros this w k Hfree Hrd.
  - exists this, w, []. by rewrite app_nil_r.
  - simpl in Hfree. apply andb_true_iff in Hfree as [He Hfree].
    apply negb_true_iff in He.
    destruct (step_exact ctor this e w)
      as (s1 & w1 & d1 & Hstep & Hj1 & Hcfg & Hst & Hd1 & Hrd1).
    rewrite He in Hrd1. cbn [failed_attempts].
    destruct (fails _ _ e).
    + rewrite Hrd, nth_delay_next in Hrd1. rewrite Hrd in Hd1.
      destruct (IH s1 w1 (S k) Hfree Hrd1) as (s2 & w2 & d2 & Hrun & Hj2 & Hd2).
      exists s2, w2, (d1 ++ d2).
      rewrite (run_cons _ _ _ _ _ _ Hstep), Hrun, Hj2, Hj1, <- app_assoc.
      rewrite scheduled_delays_app, Hd1, Hd2, Hcfg, Hst. done.
    + rewrite Hrd in Hrd1.
      destruct (IH s1 w1 k Hfree Hrd1) as (s2 & w2 & d2 & Hrun & Hj2 & Hd2).
      exists s2, w2, (d1 ++ d2).
      rewrite (run_cons _ _ _ _ _ _ Hstep), Hrun, Hj2, Hj1, <- app_assoc.
      rewrite scheduled_delays_app, Hd1, Hd2, Hcfg, Hst. done.
Qed.

Lemma dropped_attempts_back_off (n : nat) :
  forall (this : WatcherService.HAWatcherService) (w : World WatcherStore.Watcher)
         (k : nat) (sock : WebSocket),
    WatcherService.stopped this = false ->
    WatcherService.reconnectDelay this = nth_delay (S k) ->
    ctor (endpoint (WatcherService.config this)) = Returned sock ->
    exists this' w' d,
      WatcherService.run ctor this (dropped_attempts n) w = (Returned this', w') /\
      journal w' = journal w ++ d /\
      scheduled_delays d = map nth_delay (seq (S k) n).
Proof.
  induction n as [|n IH]; intros this w k sock Hst Hrd Hctor.
  - exists this, w, []. by rewrite app_nil_r.
  - change (dropped_attempts (S n))
      with (EvClose :: EvReconnectTimer :: dropped_attempts n).
    destruct (close_schedules_reconnect ctor this w Hst)
      as (s1 & w1 & d1 & Hstep1 & Hj1 & Hd1 & _ & Hst1 & Hcfg1 & Hrd1).
    rewrite Hrd, nth_delay_next in Hrd1. rewrite Hrd in Hd1.
    rewrite <- Hcfg1 in Hctor.
    destruct (attempt_opens_socket ctor s1 EvReconnectTimer w1 sock
                (or_intror (conj eq_refl Hst1)) Hctor)
      as (s2 & w2 & d2 & Hstep2 & Hj2 & Hd2 & _ & Hst2 & Hcfg2 & Hrd2).
    rewrite Hrd1 in Hrd2. rewrite <- Hcfg2 in Hctor.
    destruct (IH s2 w2 (S k) sock Hst2 Hrd2 Hctor) as (s3 & w3 & d3 & Hrun & Hj3 & Hd3).
    exists s3, w3, (d1 ++ d2 ++ d3).
    rewrite (run_cons _ _ _ _ _ _ Hstep1), (run_cons _ _ _ _ _ _ Hstep2), Hrun.
    rewrite Hj3, Hj2, Hj1, <- !app_assoc.
    by rewrite !scheduled_delays_app, Hd1, Hd2, Hd3.
Qed.

Lemma timer_attempts_back_off (n : nat) :
  forall (this : WatcherService.HAWatcherService) (w : World WatcherStore.Watcher)
         (k : nat) (err : string),
    WatcherService.stopped this = false ->
    WatcherService.reconnectDelay this = nth_delay (S k) ->
    ctor (endpoint (WatcherService.config this)) = Thrown err ->
    exists this' w' d,
      WatcherService.run ctor this (timer_attempts n) w = (Returned this', w') /\
      journal w' = journal w ++ d /\
      scheduled_delays d = map nth_delay (seq (S k) n).
Proof.
  induction n as [|n IH]; intros this w k err Hst Hrd Hctor.
  - exists this, w, []. by rewrite app_nil_r.
  - change (timer_attempts (S n)) with (EvReconnectTimer :: timer_attempts n).
    destruct (attempt_refused_schedules_reconnect ctor this EvReconnectTimer w err
                (or_intror (conj eq_refl Hst)) Hctor)
      as (s1 & w1 & d1 & Hstep1 & Hj1 & Hd1 & _ & Hst1 & Hcfg1 & Hrd1).
    rewrite Hrd, nth_delay_next in Hrd1. rewrite Hrd in Hd1.
    rewrite <- Hcfg1 in Hctor.
    destruct (IH s1 w1 (S k) err Hst1 Hrd1 Hctor) as (s2 & w2 & d2 & Hrun & Hj2 & Hd2).
    exists s2, w2, (d1 ++ d2).
    rewrite (run_cons _ _ _ _ _ _ Hstep1), Hrun, Hj2, Hj1, <- !app_assoc.
    by rewrite !scheduled_delays_app, Hd1, Hd2.
Qed.
End SessionRuns.

(** ** Reconnect backoff (C3) *)

(** C3: for every run of the session with n failed connection attempts and
    no successful open in between, the delays handed to the reconnect timer
    are exactly the first n terms of 1, 2, 4, 8, 16, 30, 30, ... seconds: the
    k-th is 1000 * min(2^(k-1), 30) milliseconds, so the sequence is
    non-decreasing and capped at 30 seconds.  A failed attempt is a socket
    that closes while the session is not stopped, or a socket that the
    platform does not construct; error events, messages, pings and stops in
    between do not count and change nothing.  After any successful open the
    delay is back at 1 second, and the reconnects scheduled from then on
    start the sequence again. *)
Theorem C3_reconnect_backoff :
  forall (ctor : string -> Outcome WebSocket)
         (cfg : WatcherService.WatcherServiceConfig)
         (w : World WatcherStore.Watcher),
    (forall events : list Event,
        open_free events = true ->
        exists this' w' d,
          WatcherService.run ctor (WatcherService.constructor cfg) events w
          = (Returned this', w') /\
          journal w' = journal w ++ d /\
          scheduled_delays d =
          map nth_delay (seq 1 (failed_attempts (refuses ctor cfg) false events))) /\
    (forall (n : nat) (sock : WebSocket),
        ctor (endpoint cfg) = Returned sock ->
        exists this' w' d,
          WatcherService.run ctor (WatcherService.constructor cfg)
            (EvStart :: dropped_attempts n) w = (Returned this', w') /\
          journal w' = journal w ++ d /\
          scheduled_delays d = map nth_delay (seq 1 n)) /\
    (forall (n : nat) (err : string),
        ctor (endpoint cfg) = Thrown err ->
        exists this' w' d,
          WatcherService.run ctor (WatcherService.constructor cfg)
            (EvStart :: timer_attempts n) w = (Returned this', w') /\
          journal w' = journal w ++ d /\
          scheduled_delays d = map nth_delay (seq 1 (S n))) /\
    (forall this : WatcherService.HAWatcherService,
        exists this1 w1,
          WatcherService.step ctor this EvOpen w = (Returned this1, w1) /\
          WatcherService.reconnectDelay this1 = 1000%Z /\
          (WatcherService.stopped this = false ->
           exists this2 w2 d,
             WatcherService.step ctor this1 EvClose w1 = (Returned this2, w2) /\
             journal w2 = journal w1 ++ d /\
             scheduled_delays d = [1000%Z]) /\
          (forall events : list Event,
              open_free events = true ->
              exists this' w' d,
                WatcherService.run ctor this1 events w1 = (Returned this', w') /\
                journal w' = journal w1 ++ d /\
                scheduled_delays d =
                map nth_delay
                    (seq 1 (failed_attempts (refuses ctor (WatcherService.config this))
                              (WatcherService.stopped this) events)))) /\
    map nth_delay (seq 1 7) = [1000; 2000; 4000; 8000; 16000; 30000; 30000]%Z /\
    (forall k : nat, (nth_delay (S k) <= nth_delay (S (S k)) <= 30000)%Z) /\
    (forall k : nat, (6 <= k)%nat -> nth_delay k = 30000%Z).
Proof.
  intros ctor cfg w. repeat apply conj.
  - intros events Hfree.
    apply (open_free_run_exact ctor events (WatcherService.constructor cfg) w 0%nat Hfree).
    reflexivity.
  - intros n sock Hctor.
    destruct (attempt_opens_socket ctor (WatcherService.constructor cfg) EvStart w sock
                (or_introl eq_refl) Hctor)
      as (s1 & w1 & d1 & Hstep & Hj1 & Hd1 & _ & Hst1 & Hcfg1 & Hrd1).
    change (WatcherService.config (WatcherService.constructor cfg)) with cfg in Hcfg1.
    rewrite <- Hcfg1 in Hctor.
    destruct (dropped_attempts_back_off ctor n s1 w1 0%nat sock Hst1 Hrd1 Hctor)
      as (s2 & w2 & d2 & Hrun & Hj2 & Hd2).
    exists s2, w2, (d1 ++ d2).
    rewrite (run_cons _ _ _ _ _ _ _ Hstep), Hrun, Hj2, Hj1, <- app_assoc.
    by rewrite scheduled_delays_app, Hd1, Hd2.
  - intros n err Hctor.
    destruct (attempt_refused_schedules_reconnect ctor (WatcherService.constructor cfg)
                EvStart w err (or_introl eq_refl) Hctor)
      as (s1 & w1 & d1 & Hstep & Hj1 & Hd1 & _ & Hst1 & Hcfg1 & Hrd1).
    change (WatcherService.config (WatcherService.constructor cfg)) with cfg in Hcfg1.
    rewrite <- Hcfg1 in Hctor.
    change (Z.min _ 30000) with (nth_delay 2) in Hrd1.
    destruct (timer_attempts_back_off ctor n s1 w1 1%nat err Hst1 Hrd1 Hctor)
      as (s2 & w2 & d2 & Hrun & Hj2 & Hd2).
    exists s2, w2, (d1 ++ d2).
    rewrite (run_cons _ _ _ _ _ _ _ Hstep), Hrun, Hj2, Hj1, <- app_assoc.
    by rewrite scheduled_delays_app, Hd1, Hd2.
  - intros this.
    destruct (open_resets_backoff ctor this w)
      as (s1 & w1 & Hstep & Hj1 & Hrd1 & Hst1 & Hcfg1).
    exists s1, w1. split; [exact Hstep|]. split; [exact Hrd1|]. split.
    + intros Hst. rewrite Hst in Hst1.
      destruct (close_schedules_reconnect ctor s1 w1 Hst1)
        as (s2 & w2 & d & Hclose & Hj2 & Hd & _).
      exists s2, w2, d. rewrite Hrd1 in Hd. done.
    + intros events Hfree. rewrite <- Hst1, <- Hcfg1.
      by apply (open_free_run_exact ctor events s1 w1 0%nat Hfree).
  - reflexivity.
  - apply nth_delay_monotone.
  - apply nth_delay_capped.
Qed.

Lemma C3_reconnect_backoff_witness :
  (exists this' w' d,
      WatcherService.run Sample.socket_ok (Sample.watcher_service None)
        [EvStart; EvError "[object Event]"; EvClose; EvReconnectTimer;
         EvMessage (BadFrame "<html>"); EvClose; EvStop; EvClose; EvReconnectTimer]
        (Sample.blank Sample.distinct_draws)
      = (Returned this', w') /\
      journal w' = journal (Sample.blank (R := WatcherStore.Watcher) Sample.distinct_draws) ++ d /\
      scheduled_delays d = [1000; 2000]%Z) /\
  (exists this' w' d,
      WatcherService.run Sample.socket_ok (Sample.watcher_service None)
        (EvStart :: dropped_attempts 7) (Sample.blank Sample.distinct_draws)
      = (Returned this', w') /\
      journal w' = journal (Sample.blank (R := WatcherStore.Watcher) Sample.distinct_draws) ++ d /\
      scheduled_delays d = [1000; 2000; 4000; 8000; 16000; 30000; 30000]%Z) /\
  (exists this' w' d,
      WatcherService.run Sample.socket_refused (Sample.watcher_service None)
        (EvStart :: timer_attempts 6) (Sample.blank Sample.distinct_draws)
      = (Returned this', w') /\
      journal w' = journal (Sample.blank (R := WatcherStore.Watcher) Sample.distinct_draws) ++ d /\
      scheduled_delays d = [1000; 2000; 4000; 8000; 16000; 30000; 30000]%Z).
Proof.
  repeat apply conj.
  - destruct (C3_reconnect_backoff Sample.socket_ok (Sample.watcher_config None)
                (Sample.blank Sample.distinct_draws)) as (Hexact & _).
    apply (Hexact [EvStart; EvError "[object Event]"; EvClose; EvReconnectTimer;
                   EvMessage (BadFrame "<html>"); EvClose; EvStop; EvClose;
                   EvReconnectTimer]).
    reflexivity.
  - destruct (C3_reconnect_backoff Sample.socket_ok (Sample.watcher_config None)
                (Sample.blank Sample.distinct_draws)) as (_ & Hdropped & _).
    apply (Hdropped 7%nat {| readyState := CONNECTING |}). reflexivity.
  - destruct (C3_reconnect_backoff Sample.socket_refused (Sample.watcher_config None)
                (Sample.blank Sample.distinct_draws)) as (_ & _ & Hrefused & _).
    apply (Hrefused 6%nat "SyntaxError: The URL is invalid"%string). reflexivity.
Defined.

(** ** Authentication failure (C4) *)

(** C4: on an [auth_invalid] message the session logs the failure, marks
    itself stopped and closes its socket; from then on, under every sequence
    of socket, timer and stop events (anything but a new [start()]), it stays
    stopped, schedules no reconnect and makes no connection attempt. *)
Theorem C4_auth_invalid_is_final :
  forall (ctor : string -> Outcome WebSocket)
         (this : WatcherService.HAWatcherService) (reason : string)
         (w : World WatcherStore.Watcher),
    exists this' w',
      WatcherService.step ctor this (EvMessage (GoodFrame (auth_invalid reason))) w
      = (Returned this', w') /\
      WatcherService.stopped this' = true /\
      journal w' =
      journal w ++
      Log ERROR ("[ha-watcher] auth failed: " +:+ reason)
      :: match WatcherService.ws this with Some _ => [WsClose] | None => [] end /\
      WatcherService.ws this' =
      match WatcherService.ws this with
      | Some _ => Some {| readyState := CLOSING |}
      | None => None
      end /\
      (forall events : list Event,
          start_free events = true ->
          exists this'' w'' d,
            WatcherService.run ctor this' events w' = (Returned this'', w'') /\
            journal w'' = journal w' ++ d /\
            WatcherService.stopped this'' = true /\
            scheduled_delays d = [] /\
            connection_attempts d = []).
Proof.
  intros ctor this reason w.
  destruct (auth_invalid_stops ctor this reason w) as (s1 & w1 & Hstep & Hj & Hst & Hws).
  exists s1, w1. repeat split; try assumption.
  intros events Hfree. by apply stopped_run_is_inert.
Qed.

Lemma C4_auth_invalid_is_final_witness :
  exists this' w',
    WatcherService.step Sample.socket_ok Sample.connected_service
      (EvMessage (GoodFrame (auth_invalid "Invalid access token")))
      (Sample.blank Sample.distinct_draws)
    = (Returned this', w') /\
    WatcherService.stopped this' = true /\
    WatcherService.ws this' = Some {| readyState := CLOSING |} /\
    exists this'' w'' d,
      WatcherService.run Sample.socket_ok this'
        [EvError "[object Event]"; EvClose; EvReconnectTimer; EvPingTimer; EvClose]
        w'
      = (Returned this'', w'') /\
      journal w'' = journal w' ++ d /\
      WatcherService.stopped this'' = true /\
      scheduled_delays d = [] /\
      connection_attempts d = [].
Proof.
  destruct (C4_auth_invalid_is_final Sample.socket_ok Sample.connected_service
              "Invalid access token" (Sample.blank Sample.distinct_draws))
    as (s1 & w1 & Hstep & Hst & _ & Hws & Hfinal).
  exists s1, w1. split; [exact Hstep|]. split; [exact Hst|]. split; [exact Hws|].
  apply Hfinal. reflexivity.
Defined.

(** * Further properties of the store *)

(** ** Array helpers *)

Lemma findIndex_None {A} (p : A -> bool) (l : list A) :
  findIndex p l = None <-> Forall (fun x => p x = false) l.
Proof.
  induction l as [|x l IH]; simpl.
  - split; [constructor|reflexivity].
  - destruct (p x) eqn:Hp.
    + split; [discriminate|]. intros H. inversion H; congruence.
    + destruct (findIndex p l); simpl.
      * split; [discriminate|]. intros H. inversion H; subst.
        apply IH in H3. discriminate.
      * split; [|reflexivity]. intros _. constructor; [exact Hp|by apply IH].
Qed.


Lemma no_id_no_hit {A} (key : A -> string) (target : string) (l : list A) :
  target ∉ map key l <-> Forall (fun r => String.eqb (key r) target = false) l.
Proof.
  rewrite Forall_forall. split.
  - intros Hnot r Hr. apply String.eqb_neq. intros <-.
    apply Hnot, list_elem_of_In, in_map, list_elem_of_In, Hr.
  - intros Hall Hin. apply list_elem_of_In, in_map_iff in Hin as (r & <- & Hr).
    apply list_elem_of_In, Hall in Hr. by rewrite String.eqb_refl in Hr.
Qed.

(** ** Removing a rule *)

Lemma remove_miss {A} (key : A -> string) (target : string) (l : list A) :
  target ∉ map key l ->
  findIndex (fun r => String.eqb (key r) target) l = None.
Proof. intros H. by apply findIndex_None, no_id_no_hit. Qed.


(** X1: Removing an id that no stored rule carries returns [false] and leaves the
    world as it was: the file is not rewritten. *)
Theorem remove_unknown_id_changes_nothing :
  (forall (dir target : string) (w : World WatcherStore.Watcher),
      target ∉ map WatcherStore.id (holds (WatcherStore.resolveWatchersPath dir) w) ->
      WatcherStore.removeWatcher dir target w = (Returned false, w)) /\
  (forall (dir target : string) (w : World ListenerStore.Listener),
      target ∉ map ListenerStore.id (holds (ListenerStore.resolveListenersPath dir) w) ->
      ListenerStore.removeListener dir target w = (Returned false, w)).
Proof.
  split; intros dir target w Hnot.
  - rewrite removeWatcher_run. cbv zeta. by rewrite (remove_miss _ _ _ Hnot).
  - rewrite removeListener_run. cbv zeta. by rewrite (remove_miss _ _ _ Hnot).
Qed.

Lemma remove_unknown_id_changes_nothing_witness :
  WatcherStore.removeWatcher Sample.state_dir "nonexistent"
    (Sample.watcher_world [Sample.bedroom_on_once; Sample.bedroom_always])
  = (Returned false,
     Sample.watcher_world [Sample.bedroom_on_once; Sample.bedroom_always]) /\
  ListenerStore.removeListener Sample.state_dir "nonexistent"
    (Sample.blank Sample.distinct_draws)
  = (Returned false, Sample.blank Sample.distinct_draws).
Proof.
  destruct remove_unknown_id_changes_nothing as [Hw Hl]. split.
  - apply Hw. apply (bool_decide_unpack _). vm_compute. exact I.
  - apply Hl. apply (bool_decide_unpack _). vm_compute. exact I.
Defined.



(** ** Saving, and what the store operations leave alone *)










(** ** Display and matching agree *)

Lemma append_inj_l (s a b : string) : s +:+ a = s +:+ b -> a = b.
Proof. induction s as [|c s IH]; simpl; [done|]. intros [= H]. by apply IH. Qed.

Lemma length_append (a b : string) :
  String.length (a +:+ b) = (String.length a + String.length b)%nat.
Proof. induction a as [|c a IH]; simpl; [done|]. by rewrite IH. Qed.

Lemma append_longer (s : string) (c : ascii) : s +:+ String c EmptyString <> s.
Proof.
  intros H. apply (f_equal String.length) in H.
  rewrite length_append in H. simpl in H. lia.
Qed.

Lemma filter_falsy_when_all_pass (c : option string) :
  (forall s, unset_empty_or_equals c s) -> truthy c = false.
Proof.
  intros H. apply truthy_false_iff.
  destruct c as [[|a x]|]; auto.
  destruct (H (String a x +:+ "!")) as [H1|[H1|H1]]; try discriminate.
  injection H1 as H1. symmetry in H1. by apply append_longer in H1.
Qed.

Lemma watcher_matches_every_change_iff (w : WatcherStore.Watcher) :
  (forall o n, o <> n ->
               WatcherStore.matchesWatcher w (WatcherStore.entityId w) o n = true)
  <-> truthy (WatcherStore.fromState w) = false /\
      truthy (WatcherStore.toState w) = false.
Proof.
  split.
  - intros Hall. split; apply filter_falsy_when_all_pass; intros s.
    + assert (s <> s +:+ "!") as Hne by (intros H; symmetry in H; by apply append_longer in H).
      by apply Hall, matchesWatcher_iff in Hne as (_ & _ & Hf & _).
    + assert (s +:+ "!" <> s) as Hne by apply append_longer.
      by apply Hall, matchesWatcher_iff in Hne as (_ & _ & _ & Ht).
  - intros [Hf Ht] o n Hne. apply matchesWatcher_iff.
    apply truthy_false_iff in Hf, Ht. unfold unset_empty_or_equals.
    repeat split; try done; tauto.
Qed.

Lemma listener_matches_every_change_iff (l : ListenerStore.Listener) :
  (forall o n, o <> n ->
               ListenerStore.matchesListener l (ListenerStore.entityId l) o n = true)
  <-> truthy (ListenerStore.fromState l) = false /\
      truthy (ListenerStore.toState l) = false.
Proof.
  split.
  - intros Hall. split; apply filter_falsy_when_all_pass; intros s.
    + assert (s <> s +:+ "!") as Hne by (intros H; symmetry in H; by apply append_longer in H).
      by apply Hall, matchesListener_iff in Hne as (_ & _ & Hf & _).
    + assert (s +:+ "!" <> s) as Hne by apply append_longer.
      by apply Hall, matchesListener_iff in Hne as (_ & _ & _ & Ht).
  - intros [Hf Ht] o n Hne. apply matchesListener_iff.
    apply truthy_false_iff in Hf, Ht. unfold unset_empty_or_equals.
    repeat split; try done; tauto.
Qed.

Lemma truthy_Some_nonempty (o : option string) :
  truthy o = true -> exists a x, o = Some (String a x).
Proof.
  destruct o as [[|a x]|]; simpl; try discriminate. eauto.
Qed.

Ltac strip_common_prefix H :=
  repeat first [ apply append_inj_l in H
               | progress (simpl in H); injection H as H ].

(** X6: The display of a rule reads "any state change" exactly when the rule
    fires on every actual state change of its entity: display and matching
    treat an unset and an empty filter alike. *)
Theorem display_says_any_change_iff_rule_matches_all :
  (forall w : WatcherStore.Watcher,
      WatcherStore.formatWatcher w = unfiltered_watcher_display w <->
      (forall o n, o <> n ->
                   WatcherStore.matchesWatcher w (WatcherStore.entityId w) o n = true)) /\
  (forall l : ListenerStore.Listener,
      ListenerStore.formatListener l = unfiltered_listener_display l <->
      (forall o n, o <> n ->
                   ListenerStore.matchesListener l (ListenerStore.entityId l) o n = true)).
Proof.
  split.
  - intros w. rewrite watcher_matches_every_change_iff.
    unfold WatcherStore.formatWatcher, unfiltered_watcher_display.
    destruct (truthy (WatcherStore.fromState w)) eqn:Hf.
    + apply truthy_Some_nonempty in Hf as (a & x & Hf). rewrite Hf.
      split; [|intros [? _]; discriminate].
      intros H. exfalso.
      destruct (truthy (WatcherStore.toState w)); strip_common_prefix H; discriminate.
    + destruct (truthy (WatcherStore.toState w)) eqn:Ht.
      * apply truthy_Some_nonempty in Ht as (a & x & Ht). rewrite Ht.
        split; [|intros [_ ?]; discriminate].
        intros H. exfalso. strip_common_prefix H; discriminate.
      * split; [done|]. intros _. reflexivity.
  - intros l. rewrite listener_matches_every_change_iff.
    unfold ListenerStore.formatListener, unfiltered_listener_display.
    destruct (truthy (ListenerStore.fromState l)) eqn:Hf.
    + apply truthy_Some_nonempty in Hf as (a & x & Hf). rewrite Hf.
      split; [|intros [? _]; discriminate].
      intros H. exfalso.
      destruct (truthy (ListenerStore.toState l)); strip_common_prefix H; discriminate.
    + destruct (truthy (ListenerStore.toState l)) eqn:Ht.
      * apply truthy_Some_nonempty in Ht as (a & x & Ht). rewrite Ht.
        split; [|intros [_ ?]; discriminate].
        intros H. exfalso. strip_common_prefix H; discriminate.
      * split; [done|]. intros _. reflexivity.
Qed.

(** * Further properties of the event handler *)



Lemma sent_app (a b : list Effect) : sent (a ++ b) = sent a ++ sent b.
Proof. unfold sent. apply omap_app. Qed.










Lemma apostrophes_app (a b : string) :
  apostrophes (a +:+ b) = (apostrophes a + apostrophes b)%nat.
Proof. induction a as [|c a IH]; simpl; [done|]. rewrite IH. lia. Qed.

Lemma apostrophes_replaced (text : string) :
  apostrophes (replace_all_quotes "'''" text) = (3 * apostrophes text)%nat.
Proof.
  induction text as [|c text IH]; [done|].
  cbn [replace_all_quotes apostrophes].
  destruct (Ascii.eqb c "'") eqn:Hc.
  - rewrite apostrophes_app, IH. simpl. lia.
  - cbn [apostrophes]. rewrite Hc, IH. lia.
Qed.

(** X9: The command the listener variant spawns holds the trigger text between
    two apostrophes, each apostrophe of the text standing as three: a text
    with k apostrophes gives a command line with 2 + 3k of them. *)
Theorem agent_command_triples_apostrophes :
  forall text : string,
    apostrophes (agent_command text) = (2 + 3 * apostrophes text)%nat /\
    (apostrophes text = 0%nat ->
     agent_command text = "openclaw agent --agent main --message '" +:+ text +:+ "'").
Proof.
  intros text. split.
  - unfold agent_command. rewrite !apostrophes_app, apostrophes_replaced.
    simpl. lia.
  - intros Hnone. unfold agent_command. do 2 f_equal.
    induction text as [|c text IH]; [done|].
    cbn [replace_all_quotes apostrophes] in *.
    destruct (Ascii.eqb c "'"); [discriminate|]. f_equal. by apply IH.
Qed.

Lemma agent_command_triples_apostrophes_witness :
  apostrophes (agent_command "it's on") = 5%nat /\
  agent_command "light on" = "openclaw agent --agent main --message 'light on'"%string.
Proof.
  destruct (agent_command_triples_apostrophes "it's on") as [Hcount _].
  destruct (agent_command_triples_apostrophes "light on") as [_ Hclean].
  split; [exact Hcount | apply Hclean; reflexivity].
Defined.

(** * Further properties of the session *)

Lemma sent_ids_app (a b : list Effect) : sent_ids (a ++ b) = sent_ids a ++ sent_ids b.
Proof. unfold sent_ids. apply omap_app. Qed.

Lemma sink_effects_send_nothing (d : list Effect) :
  Forall is_sink_effect d -> sent d = [] /\ sent_ids d = [].
Proof.
  induction 1 as [|e d He _ [IH1 IH2]]; [done|].
  unfold sent, sent_ids in *. destruct e; simpl in *; done.
Qed.

Section SessionFacts.
Variable ctor : string -> Outcome WebSocket.

Local Opaque Z.min Z.mul Z.add String.append pretty round_div_1000
  http_to_ws strip_trailing_slash WatcherService.handleStateChanged.

Ltac open_session :=
  unfold WatcherService.step, WatcherService.start, WatcherService.stop,
    WatcherService.onopen, WatcherService.onclose, WatcherService.onerror,
    WatcherService.onmessage, WatcherService.reconnect_callback,
    WatcherService.ping_callback, WatcherService.connect,
    WatcherService.scheduleReconnect, WatcherService.clearTimers,
    WatcherService.handleMessage, WatcherService.subscribeEvents,
    WatcherService.startPing, WatcherService.send, WatcherService.parse_frame,
    WatcherService.new_WebSocket, WatcherService.ws_close,
    WatcherService.socket_becomes,
    unawaited, try_catch, mbind, lift, throw, mret, logger_info, logger_error,
    logger_warn, emit;
  simpl.

Ltac by_cases :=
  repeat match goal with
         | |- context [readyState ?s] => is_var s; destruct s as [?]; simpl
         | |- context [match ?x with _ => _ end] =>
             first [is_var x | match x with ctor _ => idtac end];
             destruct x; simpl
         end.

Ltac settle :=
  eexists _, _; split; [reflexivity|]; simpl;
  rewrite <- ?app_assoc; simpl; repeat split; try reflexivity; try done.

(** [stop()] *)
Lemma stop_run (this : WatcherService.HAWatcherService)
    (w : World WatcherStore.Watcher) :
  WatcherService.step ctor this EvStop w =
  (Returned (WatcherService.mkService None (WatcherService.msgId this) None None
               (WatcherService.reconnectDelay this) true (WatcherService.config this)),
   journalled
     (match WatcherService.reconnectTimer this with Some _ => [ClearTimeout] | None => [] end
      ++ match WatcherService.pingTimer this with Some _ => [ClearInterval] | None => [] end
      ++ match WatcherService.ws this with Some _ => [WsClose] | None => [] end)
     w).
Proof.
  destruct this as [ws msgId rt pt rd st cfg]. destruct w as [f j en dr nw].
  open_session; by_cases; unfold journalled; simpl;
    rewrite <- ?app_assoc, ?app_nil_r; reflexivity.
Qed.

(** X10: [stop()] leaves the session stopped, without socket and without timers,
    having cancelled each timer that was pending and closed the socket if
    there was one; the message counter, the backoff delay and the files are
    untouched; a second [stop()] changes nothing and has no effect. *)
Theorem stop_releases_everything_and_is_idempotent :
  forall (this : WatcherService.HAWatcherService) (w : World WatcherStore.Watcher),
    exists this' w',
      WatcherService.step ctor this EvStop w = (Returned this', w') /\
      WatcherService.stopped this' = true /\
      WatcherService.ws this' = None /\
      WatcherService.reconnectTimer this' = None /\
      WatcherService.pingTimer this' = None /\
      WatcherService.msgId this' = WatcherService.msgId this /\
      WatcherService.reconnectDelay this' = WatcherService.reconnectDelay this /\
      WatcherService.config this' = WatcherService.config this /\
      files w' = files w /\
      journal w' =
      journal w
      ++ (match WatcherService.reconnectTimer this with
          | Some _ => [ClearTimeout] | None => [] end)
      ++ (match WatcherService.pingTimer this with
          | Some _ => [ClearInterval] | None => [] end)
      ++ (match WatcherService.ws this with
          | Some _ => [WsClose] | None => [] end) /\
      WatcherService.step ctor this' EvStop w' = (Returned this', w').
Proof.
  intros this w. eexists _, _. split; [apply stop_run|].
  repeat split; try reflexivity.
Qed.

(** X11: Whatever the event, a session that holds no socket, or a socket that is
    not open (connecting, closing after [auth_invalid], closed), hands
    nothing to [ws.send]: replies, subscriptions and keepalive pings are
    dropped. *)
Theorem nothing_is_sent_unless_socket_open (this : WatcherService.HAWatcherService)
    (e : Event) (w : World WatcherStore.Watcher) :
  not_open this ->
  exists this' w' d,
    WatcherService.step ctor this e w = (Returned this', w') /\
    journal w' = journal w ++ d /\ sent d = [].
Proof.
  intros Hno.
  destruct this as [ws msgId rt pt rd st cfg]. unfold not_open in Hno. simpl in Hno.
  assert (forall rs, ws = Some {| readyState := rs |} -> rs <> OPEN) as Hrs
    by (intros rs ->; exact (Hno _ eq_refl)).
  clear Hno.
  destruct e as [| | |[text|[version|version|reason|id ok failure|id ev|id]]| | | |].
  9: {
    destruct (step_event ctor (WatcherService.mkService ws msgId rt pt rd st cfg)
                id ev w) as (w' & d & Hstep & Hj & _ & _ & Hs & _).
    by eexists _, w', d. }
  all: open_session.
  8: destruct ok, failure as [[code reason]|]; simpl.
  all: by_cases.
  all: try (exfalso; exact (Hrs OPEN eq_refl eq_refl)).
  all: eexists _, _, _; split; [reflexivity|]; simpl;
    split; [first [symmetry; apply app_nil_r
                  | rewrite <- ?app_assoc; simpl; reflexivity]|reflexivity].
Qed.

(** X12: On an open socket the handshake runs as the server drives it:
    [auth_required] is answered with the configured token and changes
    nothing in the session; [auth_ok] sends one subscription to
    [state_changed] events under the next message id and starts the 30000 ms
    keepalive interval; each firing of that interval sends one ping under the
    next message id. *)
Theorem handshake_on_open_socket :
  forall (this : WatcherService.HAWatcherService) (w : World WatcherStore.Watcher),
    WatcherService.ws this = Some {| readyState := OPEN |} ->
    (forall version,
        exists w' d,
          WatcherService.step ctor this (EvMessage (GoodFrame (auth_required version))) w
          = (Returned this, w') /\
          journal w' = journal w ++ d /\
          sent d = [MsgAuth (WatcherService.token (WatcherService.config this))]) /\
    (forall version,
        exists this' w' d,
          WatcherService.step ctor this (EvMessage (GoodFrame (auth_ok version))) w
          = (Returned this', w') /\
          journal w' = journal w ++ d /\
          sent d = [MsgSubscribeEvents (WatcherService.msgId this + 1) "state_changed"] /\
          In (SetInterval 30000) d /\
          WatcherService.msgId this' = (WatcherService.msgId this + 1)%Z /\
          WatcherService.pingTimer this' = Some 30000%Z /\
          WatcherService.stopped this' = WatcherService.stopped this) /\
    (exists this' w' d,
        WatcherService.step ctor this EvPingTimer w = (Returned this', w') /\
        journal w' = journal w ++ d /\
        sent d = [MsgPing (WatcherService.msgId this + 1)] /\
        WatcherService.msgId this' = (WatcherService.msgId this + 1)%Z).
Proof.
  intros this w Hopen.
  destruct this as [ws msgId rt pt rd st cfg]. simpl in Hopen. subst ws.
  repeat apply conj.
  - intros version. open_session. eexists _, _. split; [reflexivity|]. simpl. done.
  - intros version. open_session. eexists _, _, _. split; [reflexivity|]. simpl.
    rewrite <- !app_assoc. simpl. split; [reflexivity|].
    repeat split; try reflexivity. simpl. tauto.
  - open_session. eexists _, _, _. split; [reflexivity|]. simpl. done.
Qed.

Lemma step_ids (this : WatcherService.HAWatcherService) (e : Event)
    (w : World WatcherStore.Watcher) :
  e <> EvReconnectTimer ->
  exists this' w' d,
    WatcherService.step ctor this e w = (Returned this', w') /\
    journal w' = journal w ++ d /\
    ((sent_ids d = [] /\
      (WatcherService.msgId this <= WatcherService.msgId this')%Z) \/
     (sent_ids d = [(WatcherService.msgId this + 1)%Z] /\
      WatcherService.msgId this' = (WatcherService.msgId this + 1)%Z)).
Proof.
  intros Hne.
  destruct this as [ws msgId rt pt rd st cfg].
  destruct e as [| | |[text|[version|version|reason|id ok failure|id ev|id]]| | | |];
    try congruence; clear Hne.
  9: {
    destruct (step_event ctor (WatcherService.mkService ws msgId rt pt rd st cfg)
                id ev w) as (w' & d & Hstep & Hj & _ & _ & _ & Hs).
    eexists _, w', d. split; [exact Hstep|]. split; [exact Hj|]. left.
    split; [exact Hs|lia]. }
  all: open_session.
  8: destruct ok, failure as [[code reason]|]; simpl.
  all: by_cases.
  all: eexists _, _, _; split; [reflexivity|]; simpl;
    (split; [first [symmetry; apply app_nil_r
                   | rewrite <- ?app_assoc; simpl; reflexivity]|]);
    first [ right; split; reflexivity
          | left; split; [reflexivity|simpl; lia] ].
Qed.

Lemma increasing_from_weaken (m m' : Z) (l : list Z) :
  (m <= m')%Z -> increasing_from m' l -> increasing_from m l.
Proof. destruct l as [|x l]; simpl; [done|]. intros Hm [Hx Hl]. split; [lia|done]. Qed.

Lemma run_ids (events : list Event) :
  forall (this : WatcherService.HAWatcherService) (w : World WatcherStore.Watcher),
    same_connection events = true ->
    exists this' w' d,
      WatcherService.run ctor this events w = (Returned this', w') /\
      journal w' = journal w ++ d /\
      increasing_from (WatcherService.msgId this) (sent_ids d).
Proof.
  induction events as [|e events IH]; intros this w Hsame.
  - exists this, w, []. by rewrite app_nil_r.
  - simpl in Hsame. apply andb_true_iff in Hsame as [He Hsame].
    assert (e <> EvReconnectTimer) as Hne by (intros ->; discriminate).
    destruct (step_ids this e w Hne) as (s1 & w1 & d1 & Hstep & Hj1 & Hids).
    destruct (IH s1 w1 Hsame) as (s2 & w2 & d2 & Hrun & Hj2 & Hinc).
    exists s2, w2, (d1 ++ d2).
    rewrite (run_cons ctor _ _ _ _ _ _ Hstep), Hrun, Hj2, Hj1, <- app_assoc.
    split; [reflexivity|]. split; [reflexivity|].
    rewrite sent_ids_app.
    destruct Hids as [[-> Hle]|[-> Heq]]; simpl.
    + by apply (increasing_from_weaken _ _ _ Hle).
    + rewrite Heq in Hinc. split; [lia|exact Hinc].
Qed.

(** X13: Between two firings of the reconnect timer, the ids of the commands the
    session sends (subscriptions and pings) are strictly increasing and lie
    above the message counter the run started with; the reconnect timer's
    callback sets the counter back to 0 before it connects, so the first
    command of a new connection carries id 1. *)
Theorem message_ids_increase_within_a_connection :
  forall (this : WatcherService.HAWatcherService) (w : World WatcherStore.Watcher),
    (forall events : list Event,
        same_connection events = true ->
        exists this' w' d,
          WatcherService.run ctor this events w = (Returned this', w') /\
          journal w' = journal w ++ d /\
          increasing_from (WatcherService.msgId this) (sent_ids d)) /\
    (exists this' w',
        WatcherService.step ctor this EvReconnectTimer w = (Returned this', w') /\
        WatcherService.msgId this' = 0%Z /\
        WatcherService.reconnectTimer this' =
        (if WatcherService.stopped this then None
         else match ctor (endpoint (WatcherService.config this)) with
              | Returned _ => None
              | Thrown _ => Some (WatcherService.reconnectDelay this)
              end)).
Proof.
  intros this w. split.
  - intros events Hsame. by apply run_ids.
  - destruct this as [ws msgId rt pt rd st cfg]. unfold endpoint.
    open_session. destruct st; simpl.
    + eexists _, _. split; [reflexivity|]. done.
    + destruct (ctor _); simpl; eexists _, _; (split; [reflexivity|]); done.
Qed.

(** X14: Only [auth_ok] and [auth_invalid] change the session: a frame that does
    not parse, [auth_required], [result], [pong] and every [event] message
    leave the session object exactly as it was, schedule no reconnect and
    open no socket; a frame that does not parse is logged as one error and
    leaves the world otherwise untouched. *)
Theorem other_messages_leave_the_session_alone :
  forall (this : WatcherService.HAWatcherService) (payload : Frame)
         (w : World WatcherStore.Watcher),
    leaves_session_alone payload = true ->
    exists w' d,
      WatcherService.step ctor this (EvMessage payload) w = (Returned this, w') /\
      journal w' = journal w ++ d /\
      scheduled_delays d = [] /\ connection_attempts d = [] /\
      (forall text, payload = BadFrame text ->
                    exists msg, d = [Log ERROR msg] /\ w' = journalled d w).
Proof.
  intros this payload w Halone.
  destruct this as [ws msgId rt pt rd st cfg].
  destruct payload as [text|[version|version|reason|id ok failure|id ev|id]];
    try discriminate; clear Halone.
  4: {
    destruct (step_event ctor (WatcherService.mkService ws msgId rt pt rd st cfg)
                id ev w) as (w' & d & Hstep & Hj & Hd1 & Hd2 & _).
    exists w', d. split; [exact Hstep|]. repeat split; try done. }
  all: open_session.
  3: destruct ok, failure as [[code reason]|]; simpl.
  all: by_cases.
  all: eexists _, _; split; [reflexivity|]; simpl;
    (split; [first [symmetry; apply app_nil_r
                   | rewrite <- ?app_assoc; simpl; reflexivity]|]);
    repeat split; try reflexivity; try (intros ? [=]).
  eexists. split; reflexivity.
Qed.

(** X15: A close event leaves the session without socket and without keepalive
    timer, the keepalive being cancelled exactly when one was running and a
    pending reconnect timer being cancelled first; the message counter is
    kept.  A stopped session then holds no reconnect timer and schedules
    nothing; a running one holds the timer it just scheduled with the
    current delay. *)
Theorem close_event_tears_the_connection_down :
  forall (this : WatcherService.HAWatcherService) (w : World WatcherStore.Watcher),
    exists this' w' d,
      WatcherService.step ctor this EvClose w = (Returned this', w') /\
      journal w' = journal w ++ d /\
      files w' = files w /\
      WatcherService.ws this' = None /\
      WatcherService.pingTimer this' = None /\
      WatcherService.msgId this' = WatcherService.msgId this /\
      WatcherService.stopped this' = WatcherService.stopped this /\
      (In ClearInterval d <-> WatcherService.pingTimer this <> None) /\
      (In ClearTimeout d <-> WatcherService.reconnectTimer this <> None) /\
      (WatcherService.stopped this = true ->
       WatcherService.reconnectTimer this' = None /\ scheduled_delays d = []) /\
      (WatcherService.stopped this = false ->
       WatcherService.reconnectTimer this' = Some (WatcherService.reconnectDelay this) /\
       scheduled_delays d = [WatcherService.reconnectDelay this]).
Proof.
  intros this w.
  destruct this as [ws msgId rt pt rd st cfg].
  open_session; by_cases.
  all: eexists _, _, _; split; [reflexivity|]; simpl;
    (split; [rewrite <- ?app_assoc; simpl; reflexivity|]);
    repeat split; try reflexivity; try discriminate; simpl;
    try (intros; congruence); try tauto;
    try (intros [H|H]; repeat (try discriminate H; destruct H as [H|H]); tauto).
Qed.

(** X16: A socket is opened only by [start()] and by the reconnect timer, at most
    one per event and always towards the configured endpoint; [start()]
    always makes the attempt and leaves the session running, also after a
    stop or an authentication failure, while the reconnect timer makes it
    only when the session is not stopped. *)
Theorem sockets_are_opened_only_by_start_and_reconnect :
  forall (this : WatcherService.HAWatcherService) (e : Event)
         (w : World WatcherStore.Watcher),
    exists this' w' d,
      WatcherService.step ctor this e w = (Returned this', w') /\
      journal w' = journal w ++ d /\
      connection_attempts d =
      match e with
      | EvStart => [endpoint (WatcherService.config this)]
      | EvReconnectTimer =>
          if WatcherService.stopped this then []
          else [endpoint (WatcherService.config this)]
      | _ => []
      end /\
      (e = EvStart -> WatcherService.stopped this' = false).
Proof.
  intros this e w.
  destruct this as [ws msgId rt pt rd st cfg]. unfold endpoint.
  destruct e as [| | |[text|[version|version|reason|id ok failure|id ev|id]]| | | |].
  9: {
    destruct (step_event ctor (WatcherService.mkService ws msgId rt pt rd st cfg)
                id ev w) as (w' & d & Hstep & Hj & _ & Hd2 & _).
    eexists _, w', d. split; [exact Hstep|]. repeat split; try done. }
  all: open_session.
  8: destruct ok, failure as [[code reason]|]; simpl.
  all: by_cases.
  all: eexists _, _, _; split; [reflexivity|]; simpl;
    (split; [first [symmetry; apply app_nil_r
                   | rewrite <- ?app_assoc; simpl; reflexivity]|]);
    split; first [reflexivity | discriminate | intros _; reflexivity].
Qed.

End SessionFacts.

Lemma nothing_is_sent_unless_socket_open_witness :
  let this :=
    WatcherService.mkService (Some {| readyState := CONNECTING |}) 0 None None 1000 false
      (Sample.watcher_config (Some "main"%string)) in
  let w := Sample.blank (R := WatcherStore.Watcher) Sample.distinct_draws in
  not_open this /\
  exists this' w' d,
    WatcherService.step Sample.socket_ok this
      (EvMessage (GoodFrame (auth_ok "2026.1.0"))) w = (Returned this', w') /\
    journal w' = journal w ++ d /\ sent d = [].
Proof.
  cbv zeta.
  assert (not_open
            (WatcherService.mkService (Some {| readyState := CONNECTING |}) 0 None None
               1000 false (Sample.watcher_config (Some "main"%string)))) as Hno.
  { intros sock [= <-]. discriminate. }
  split; [exact Hno|].
  exact (nothing_is_sent_unless_socket_open Sample.socket_ok _
           (EvMessage (GoodFrame (auth_ok "2026.1.0")))
           (Sample.blank Sample.distinct_draws) Hno).
Defined.

Lemma handshake_on_open_socket_witness :
  let w := Sample.blank (R := WatcherStore.Watcher) Sample.distinct_draws in
  exists this' w' d,
    WatcherService.step Sample.socket_ok Sample.connected_service
      (EvMessage (GoodFrame (auth_ok "2026.1.0"))) w = (Returned this', w') /\
    journal w' = journal w ++ d /\
    sent d = [MsgSubscribeEvents 1 "state_changed"] /\
    In (SetInterval 30000) d /\
    WatcherService.msgId this' = 1%Z /\
    WatcherService.pingTimer this' = Some 30000%Z /\
    WatcherService.stopped this' = false.
Proof.
  exact (proj1 (proj2 (handshake_on_open_socket Sample.socket_ok
                         Sample.connected_service
                         (Sample.blank Sample.distinct_draws) eq_refl))
           "2026.1.0"%string).
Defined.

Lemma message_ids_increase_within_a_connection_witness :
  let w := Sample.blank (R := WatcherStore.Watcher) Sample.distinct_draws in
  exists this' w' d,
    WatcherService.run Sample.socket_ok Sample.connected_service
      [EvMessage (GoodFrame (auth_required "2026.1.0"));
       EvMessage (GoodFrame (auth_ok "2026.1.0"));
       EvPingTimer; EvMessage (GoodFrame (pong 2)); EvPingTimer] w
    = (Returned this', w') /\
    journal w' = journal w ++ d /\
    increasing_from 0 (sent_ids d).
Proof.
  exact (proj1 (message_ids_increase_within_a_connection Sample.socket_ok
                  Sample.connected_service (Sample.blank Sample.distinct_draws))
           [EvMessage (GoodFrame (auth_required "2026.1.0"));
            EvMessage (GoodFrame (auth_ok "2026.1.0"));
            EvPingTimer; EvMessage (GoodFrame (pong 2)); EvPingTimer]
           eq_refl).
Defined.

Lemma other_messages_leave_the_session_alone_witness :
  let w := Sample.blank (R := WatcherStore.Watcher) Sample.distinct_draws in
  exists w' d,
    WatcherService.step Sample.socket_ok Sample.connected_service
      (EvMessage (BadFrame "<html>502 Bad Gateway</html>")) w
    = (Returned Sample.connected_service, w') /\
    journal w' = journal w ++ d /\
    scheduled_delays d = [] /\ connection_attempts d = [] /\
    (forall text, BadFrame "<html>502 Bad Gateway</html>" = BadFrame text ->
                  exists msg, d = [Log ERROR msg] /\ w' = journalled d w).
Proof.
  exact (other_messages_leave_the_session_alone Sample.socket_ok
           Sample.connected_service (BadFrame "<html>502 Bad Gateway</html>")
           (Sample.blank Sample.distinct_draws) eq_refl).
Defined.

(** ** The endpoint *)

Lemma append_assoc (a b c : string) : (a +:+ b) +:+ c = a +:+ b +:+ c.
Proof.
  induction a as [|x a IH]; [reflexivity|].
  change (String x ((a +:+ b) +:+ c) = String x (a +:+ b +:+ c)). by rewrite IH.
Qed.

Lemma strip_trailing_slash_one (s : string) : strip_trailing_slash (s +:+ "/") = s.
Proof.
  induction s as [|c s IH]; [reflexivity|].
  change (String c s +:+ "/") with (String c (s +:+ "/")).
  cbn [strip_trailing_slash]. rewrite IH.
  destruct s; reflexivity.
Qed.

Lemma strip_trailing_slash_none (s : string) (c : ascii) :
  c <> "/"%char ->
  strip_trailing_slash (s +:+ String c EmptyString) = s +:+ String c EmptyString.
Proof.
  intros Hc. induction s as [|x s IH].
  - simpl. by apply Ascii.eqb_neq in Hc as ->.
  - change (String x s +:+ String c EmptyString)
      with (String x (s +:+ String c EmptyString)).
    cbn [strip_trailing_slash]. rewrite IH.
    destruct s; reflexivity.
Qed.

Lemma substring_all (s : string) : String.substring 0 (String.length s) s = s.
Proof. induction s as [|c s IH]; simpl; [done|]. by rewrite IH. Qed.

Lemma http_to_ws_http (rest : string) : http_to_ws ("http" +:+ rest) = "ws" +:+ rest.
Proof.
  unfold http_to_ws.
  change (String.prefix "http" ("http" +:+ rest)) with (String.prefix "" rest).
  change (String.length ("http" +:+ rest) - 4)%nat with (String.length rest - 0)%nat.
  rewrite Nat.sub_0_r.
  change (String.substring 4 (String.length rest) ("http" +:+ rest))
    with (String.substring 0 (String.length rest) rest).
  rewrite substring_all. by destruct rest.
Qed.

(** X17: The socket endpoint is the configured URL with one trailing slash
    dropped, a leading "http" turned into "ws" (so "https" into "wss"), and
    "/api/websocket" appended: a URL with and without the trailing slash
    give the same endpoint, and a URL that does not start with "http" keeps
    its scheme. *)
Theorem endpoint_of_configured_url :
  forall (cfg : WatcherService.WatcherServiceConfig) (rest : string),
    (WatcherService.url cfg = "http" +:+ rest +:+ "/" ->
     endpoint cfg = "ws" +:+ rest +:+ "/api/websocket") /\
    (forall c : ascii,
        c <> "/"%char ->
        WatcherService.url cfg = "http" +:+ rest +:+ String c EmptyString ->
        endpoint cfg = "ws" +:+ rest +:+ String c EmptyString +:+ "/api/websocket") /\
    (String.prefix "http" (strip_trailing_slash (WatcherService.url cfg)) = false ->
     endpoint cfg = strip_trailing_slash (WatcherService.url cfg) +:+ "/api/websocket").
Proof.
  intros cfg rest. unfold endpoint. repeat apply conj.
  - intros ->. rewrite <- append_assoc, strip_trailing_slash_one, http_to_ws_http.
    by rewrite append_assoc.
  - intros c Hc ->.
    rewrite <- append_assoc, (strip_trailing_slash_none _ _ Hc), append_assoc,
      http_to_ws_http.
    by rewrite !append_assoc.
  - intros Hno. unfold http_to_ws. by rewrite Hno.
Qed.

Lemma endpoint_of_configured_url_witness :
  endpoint (Sample.watcher_config None) = "ws://homeassistant.local:8123/api/websocket"%string /\
  endpoint {| WatcherService.url := "https://ha.example.org";
              WatcherService.token := "secret";
              WatcherService.stateDir := Sample.state_dir;
              WatcherService.enqueueSystemEvent := fun _ _ => Returned tt;
              WatcherService.resolveSessionKey := fun _ => None |}
  = "wss://ha.example.org/api/websocket"%string /\
  endpoint {| WatcherService.url := "localhost:8123/";
              WatcherService.token := "secret";
              WatcherService.stateDir := Sample.state_dir;
              WatcherService.enqueueSystemEvent := fun _ _ => Returned tt;
              WatcherService.resolveSessionKey := fun _ => None |}
  = "localhost:8123/api/websocket"%string.
Proof.
  repeat apply conj.
  - apply (proj1 (endpoint_of_configured_url (Sample.watcher_config None)
                    "://homeassistant.local:8123")). reflexivity.
  - refine (proj1 (proj2 (endpoint_of_configured_url _ "s://ha.example.or"))
              "g"%char _ _); [discriminate|reflexivity].
  - refine (proj2 (proj2 (endpoint_of_configured_url _ EmptyString)) _). reflexivity.
Defined.

(** * The [ha_listen] tool *)


Ltac tool_action :=
  unfold Tools.execute;
  repeat match goal with
         | H : Tools.isConfigured _ = _ |- _ => rewrite H
         | H : Tools.action _ = _ |- _ => rewrite H
         end;
  cbn [negb];
  repeat (case_bool_decide; try congruence).

(** X18: A call that is turned down is answered with a message and leaves the
    world exactly as it was: no file is written, no id is drawn and nothing
    is logged.  In particular an [add] for an entity the client does not
    return stores no rule. *)
Theorem ha_listen_turned_down_changes_nothing :
  forall (stateDir : string) (client : Tools.HAClient) (params : Tools.Params)
         (w : World ListenerStore.Listener),
    turned_down client params ->
    exists reply, Tools.execute stateDir client params w = (Returned reply, w).
Proof.
  intros stateDir client params w Hdown.
  destruct (Tools.isConfigured client) eqn:Hcfg;
    [|unfold Tools.execute; rewrite Hcfg; eexists; reflexivity].
  destruct Hdown as [Hoff|[[Hact Hadd]|[[Hact Hid]|(Ha & Hl & Hr)]]].
  - congruence.
  - tool_action.
    destruct (truthy (Tools.entity_id params)); cbn [negb orb];
      [|eexists; reflexivity].
    destruct (truthy (Tools.message params)); cbn [negb];
      [|eexists; reflexivity].
    destruct Hadd as [?|[?|Hnone]]; try discriminate.
    rewrite Hnone. eexists; reflexivity.
  - tool_action. rewrite Hid. eexists; reflexivity.
  - tool_action. eexists; reflexivity.
Qed.

Lemma ha_listen_turned_down_changes_nothing_witness :
  let w := Sample.listener_world [Watcher_as_Listener Sample.bedroom_always] in
  turned_down ToolSample.client (ToolSample.add "light.attic") /\
  exists reply,
    Tools.execute Sample.state_dir ToolSample.client (ToolSample.add "light.attic") w
    = (Returned reply, w).
Proof.
  cbv zeta.
  assert (turned_down ToolSample.client (ToolSample.add "light.attic")) as Hdown.
  { right. left. split; [reflexivity|]. right. right. reflexivity. }
  split; [exact Hdown|].
  exact (ha_listen_turned_down_changes_nothing Sample.state_dir ToolSample.client
           (ToolSample.add "light.attic")
           (Sample.listener_world [Watcher_as_Listener Sample.bedroom_always]) Hdown).
Defined.








